(** * Terrain aspect (xrspatial/aspect.py): embedding and verification

    The development follows the layout of [aspect.py]:

    - [Exact]: the scalars of the program (float64 / float32 values) in exact
      arithmetic: a scalar is NaN or a real number; every operation propagates
      NaN and every comparison with NaN is false, as in IEEE 754.  Rounding,
      overflow, infinities and the sign of zero are not part of this layer.
    - [Grid]: two-dimensional arrays with numpy's indexing, slicing, padding
      and allocation, and Python exceptions as an error monad.
    - [Aspect]: the functions of [aspect.py]: [_cpu], [_gpu], [_run_gpu],
      [_run_cupy], [_run_numpy], [_run_dask_numpy].
    - [Binary64]: the degree conversion of [_cpu] (lines 53-60) on IEEE 754
      binary64 numbers, for the one place where rounding decides the result. *)

From Stdlib Require Import Reals Lra Lia ZArith.
From Stdlib Require PrimFloat.
From stdpp Require Import base list strings.

(* ===================================================================== *)
(** ** Scalars in exact arithmetic *)
(* ===================================================================== *)

Module Exact.

#[global] Instance R_eq_dec : EqDecision R := Req_dec_T.
#[global] Instance Rlt_rel_dec : RelDecision Rlt := Rlt_dec.

(** A float of the program: NaN, or a (finite) real number. *)
Inductive scalar : Type :=
  | NaN
  | Fin (r : R).

Definition lift1 (op : R -> R) (u : scalar) : scalar :=
  match u with
  | Fin a => Fin (op a)
  | NaN => NaN
  end.

Definition lift2 (op : R -> R -> R) (u v : scalar) : scalar :=
  match u, v with
  | Fin a, Fin b => Fin (op a b)
  | _, _ => NaN
  end.

Definition fadd : scalar -> scalar -> scalar := lift2 Rplus.
Definition fsub : scalar -> scalar -> scalar := lift2 Rminus.
Definition fmul : scalar -> scalar -> scalar := lift2 Rmult.
(** Division; the program only ever divides by the constant 8. *)
Definition fdiv : scalar -> scalar -> scalar := lift2 Rdiv.
Definition fneg : scalar -> scalar := lift1 Ropp.

(** Comparisons: anything compared with NaN is false. *)
Definition feqb (u v : scalar) : bool :=
  match u, v with
  | Fin a, Fin b => bool_decide (a = b)
  | _, _ => false
  end.

Definition fltb (u v : scalar) : bool :=
  match u, v with
  | Fin a, Fin b => bool_decide (a < b)%R
  | _, _ => false
  end.

Definition fgtb (u v : scalar) : bool := fltb v u.

(** [math.atan2] / [np.arctan2] on real numbers: the angle of the point
    [(x, y)] in (-PI, PI]; the library's value at the origin is 0. *)
Definition atan2 (y x : R) : R :=
  if bool_decide (0 < x)%R then atan (y / x)
  else if bool_decide (x < 0)%R then
    if bool_decide (y < 0)%R then (atan (y / x) - PI)%R else (atan (y / x) + PI)%R
  else if bool_decide (0 < y)%R then (PI / 2)%R
  else if bool_decide (y < 0)%R then (- (PI / 2))%R
  else 0%R.

Definition arctan2 : scalar -> scalar -> scalar := lift2 atan2.

End Exact.

Export Exact.

Declare Scope scalar_scope.
Delimit Scope scalar_scope with sc.
Bind Scope scalar_scope with scalar.
Infix "+" := fadd : scalar_scope.
Infix "-" := fsub : scalar_scope.
Infix "*" := fmul : scalar_scope.
Infix "/" := fdiv : scalar_scope.
Notation "- x" := (fneg x) : scalar_scope.
Infix "==?" := feqb (at level 70) : scalar_scope.
Infix "<?" := fltb : scalar_scope.
Infix ">?" := fgtb : scalar_scope.

(* ===================================================================== *)
(** ** Arrays, indexing and exceptions *)
(* ===================================================================== *)

Module Grid.

(** Python exceptions the program can meet. *)
Inductive exn : Type :=
  | IndexError
  | ValueError
  | TypeError
  | NotImplementedError
  | NameError (name : string).

Inductive result (A : Type) : Type :=
  | Ok (a : A)
  | Raise (e : exn).
Arguments Ok {A} a.
Arguments Raise {A} e.

Definition bind {A B : Type} (m : result A) (k : A -> result B) : result B :=
  match m with
  | Ok a => k a
  | Raise e => Raise e
  end.

(** A two-dimensional array: its shape and its rows. *)
Record ndarray : Type := mk_ndarray {
  nrows : nat;
  ncols : nat;
  cells : list (list scalar)
}.

(** The invariant of a two-dimensional array: [nrows] rows of [ncols] cells. *)
Definition wf (a : ndarray) : Prop :=
  length (cells a) = nrows a /\ Forall (fun r => length r = ncols a) (cells a).

(** [a.shape] *)
Definition shape (a : ndarray) : Z * Z := (Z.of_nat (nrows a), Z.of_nat (ncols a)).

(** The positions of an array, with indices counted from 0. *)
Definition in_grid (a : ndarray) (y x : Z) : Prop :=
  (0 <= y < Z.of_nat (nrows a))%Z /\ (0 <= x < Z.of_nat (ncols a))%Z.

(** Two arrays of one shape. *)
Definition same_shape (a b : ndarray) : Prop :=
  nrows a = nrows b /\ ncols a = ncols b.

(** An index into an axis of length [n]: negative indices count from the
    end, anything else out of range is an IndexError. *)
Definition index (n : nat) (i : Z) : result nat :=
  let i' := if (i <? 0)%Z then (i + Z.of_nat n)%Z else i in
  if ((0 <=? i') && (i' <? Z.of_nat n))%Z then Ok (Z.to_nat i') else Raise IndexError.

Definition cell (a : ndarray) (iy ix : nat) : option scalar :=
  match cells a !! iy with
  | Some row => row !! ix
  | None => None
  end.

(** [a[y, x]].  Under numba the access is compiled without a bounds check;
    an access outside the array is modelled as Python's IndexError, and
    [_cpu] never makes one. *)
Definition get (a : ndarray) (y x : Z) : result scalar :=
  bind (index (nrows a) y) (fun iy =>
  bind (index (ncols a) x) (fun ix =>
  match cell a iy ix with
  | Some v => Ok v
  | None => Raise IndexError
  end)).

(** [a[y, x] = v] *)
Definition set (a : ndarray) (y x : Z) (v : scalar) : result ndarray :=
  bind (index (nrows a) y) (fun iy =>
  bind (index (ncols a) x) (fun ix =>
  Ok (mk_ndarray (nrows a) (ncols a) (alter (fun row => <[ix := v]> row) iy (cells a))))).

(** An array of the given shape with [v] in every cell. *)
Definition full (rows cols : nat) (v : scalar) : ndarray :=
  mk_ndarray rows cols (replicate rows (replicate cols v)).

(** [np.zeros_like(a, dtype=np.float64)] *)
Definition zeros_like (a : ndarray) : ndarray := full (nrows a) (ncols a) (Fin 0).

(** [cupy.empty(shape, dtype='f4')]: the contents are unspecified until the
    array is filled; zeros stand for them. *)
Definition empty (rows cols : nat) : ndarray := full rows cols (Fin 0).

(** [a[:] = v] *)
Definition fill (a : ndarray) (v : scalar) : ndarray :=
  mk_ndarray (nrows a) (ncols a) (map (map (fun _ => v)) (cells a)).

(** One bound of a Python slice on an axis of length [n]: negative bounds
    count from the end, and bounds are clamped to the axis (slices never
    raise). *)
Definition slice_bound (n : nat) (i : Z) : nat :=
  if (i <? 0)%Z then Z.to_nat (Z.max 0 (i + Z.of_nat n)) else Nat.min (Z.to_nat i) n.

Definition sublist {A : Type} (lo hi : nat) (l : list A) : list A :=
  take (hi - lo) (drop lo l).

(** [a[r0:r1, c0:c1]] *)
Definition slice2 (a : ndarray) (r0 r1 c0 c1 : Z) : ndarray :=
  let rl := slice_bound (nrows a) r0 in
  let rh := slice_bound (nrows a) r1 in
  let cl := slice_bound (ncols a) c0 in
  let ch := slice_bound (ncols a) c1 in
  mk_ndarray (rh - rl) (ch - cl) (map (sublist cl ch) (sublist rl rh (cells a))).

(** Boundary modes of [np.pad] and of dask's [map_overlap]. *)
Inductive pad_mode : Type :=
  | Reflect
  | Constant (v : scalar).

(** One axis padded by one element on each side, mode "reflect": the
    element next to the edge is mirrored about the edge element; an axis of
    length one repeats its only element. *)
Definition reflect1 {A : Type} (l : list A) : list A :=
  match l with
  | [] => []
  | x0 :: _ => default x0 (l !! 1) :: l ++ [default x0 (l !! (length l - 2))]
  end.

(** The position mode "reflect" copies to position [k] of the padded axis,
    for an axis of length [n]. *)
Definition mirror (n k : nat) : nat :=
  if (k =? 0)%nat then (if (2 <=? n)%nat then 1 else 0)%nat
  else if (k =? n + 1)%nat then (n - 2)%nat
  else (k - 1)%nat.

(** The positions that padding by one cell adds around an array of the
    given shape. *)
Definition halo (rows cols : nat) (y x : nat) : bool :=
  (y =? 0)%nat || (y =? rows + 1)%nat || (x =? 0)%nat || (x =? cols + 1)%nat.

(** One axis padded by one element on each side with a constant. *)
Definition const1 {A : Type} (v : A) (l : list A) : list A := v :: l ++ [v].

(** [np.pad(a, pad_width=((1, 1), (1, 1)), mode=...)]: axis 0 is padded
    first, then axis 1.  Mode "reflect" cannot extend an empty axis. *)
Definition np_pad (a : ndarray) (mode : pad_mode) : result ndarray :=
  match mode with
  | Constant v =>
      Ok (mk_ndarray (nrows a + 2) (ncols a + 2)
            (map (const1 v) (const1 (replicate (ncols a) v) (cells a))))
  | Reflect =>
      if (nrows a =? 0) || (ncols a =? 0) then Raise ValueError
      else Ok (mk_ndarray (nrows a + 2) (ncols a + 2)
                 (map reflect1 (reflect1 (cells a))))
  end.

(** [range(lo, hi)] *)
Definition range (lo hi : Z) : list Z := seqZ lo (hi - lo).

(** [for x in xs: body], threading the state and stopping at the first
    exception. *)
Fixpoint for_ {S : Type} (xs : list Z) (body : Z -> S -> result S) (s : S) : result S :=
  match xs with
  | [] => Ok s
  | x :: xs' => bind (body x s) (for_ xs' body)
  end.

End Grid.

Export Grid.

Notation "'do' x <- m ; k" := (bind m (fun x => k))
  (at level 10, x name, m at level 100, k at level 200).

(* ===================================================================== *)
(** ** The functions of aspect.py *)
(* ===================================================================== *)

Module Aspect.

Open Scope scalar_scope.

(** [RADIAN = 180 / np.pi] *)
Definition RADIAN : scalar := Fin 180 / Fin PI.

(** Horn's partial derivatives (lines 46-47 and 81-82). *)
Definition horn_dz_dx (a c d f g i : scalar) : scalar :=
  ((c + Fin 2 * f + i) - (a + Fin 2 * d + g)) / Fin 8.

Definition horn_dz_dy (a b c g h i : scalar) : scalar :=
  ((g + Fin 2 * h + i) - (a + Fin 2 * b + c)) / Fin 8.

(** Lines 55-60: from the angle in degrees to a compass bearing. *)
Definition compass (aspect : scalar) : scalar :=
  if aspect <? Fin 0 then Fin 90 - aspect
  else if aspect >? Fin 90 then Fin 360 - aspect + Fin 90
  else Fin 90 - aspect.

(** Lines 49-53: the branch taken on the two derivatives.  The only call of
    [np.arctan2] sits in the else branch; [Arctan2 y x] records that call
    with its arguments, [NoCall] the flat branch, which makes none. *)
Inductive trig_call : Type :=
  | NoCall
  | Arctan2 (y x : scalar).

Definition _cpu_branch (dz_dx dz_dy : scalar) : trig_call :=
  if (dz_dx ==? Fin 0) && (dz_dy ==? Fin 0) then NoCall
  else Arctan2 dz_dy (- dz_dx).

(** Lines 46-60: the value [_cpu] writes for a cell with neighbours
    a b c / d . f / g h i. *)
Definition _cpu_kernel (a b c d f g h i : scalar) : scalar :=
  let dz_dx := horn_dz_dx a c d f g i in
  let dz_dy := horn_dz_dy a b c g h i in
  match _cpu_branch dz_dx dz_dy with
  | NoCall => Fin (-1)
  | Arctan2 y x => compass (arctan2 y x * RADIAN)
  end.

(** The same lines on neighbours that are all real numbers: the two
    derivatives, the angle in degrees, and the bearing. *)
Definition dz_dx_real (a c d f g i : R) : R :=
  (((c + 2 * f + i) - (a + 2 * d + g)) / 8)%R.

Definition dz_dy_real (a b c g h i : R) : R :=
  (((g + 2 * h + i) - (a + 2 * b + c)) / 8)%R.

Definition degrees (y x : R) : R := (atan2 y x * (180 / PI))%R.

Definition bearing (aspect : R) : R :=
  if bool_decide (aspect < 0)%R then (90 - aspect)%R
  else if bool_decide (90 < aspect)%R then (360 - aspect + 90)%R
  else (90 - aspect)%R.

(** A quarter turn of the neighbourhood, clockwise and anticlockwise:
<<
      a b c        g d a            a b c        c f i
      d . f   ->   h . b            d . f   ->   b . h
      g h i        i f c            g h i        a d g
>> *)
Definition rotate_cw {A : Type} (k : scalar -> scalar -> scalar -> scalar ->
    scalar -> scalar -> scalar -> scalar -> A) (a b c d f g h i : scalar) : A :=
  k g d a h b i f c.

Definition rotate_ccw {A : Type} (k : scalar -> scalar -> scalar -> scalar ->
    scalar -> scalar -> scalar -> scalar -> A) (a b c d f g h i : scalar) : A :=
  k c f i b h a d g.

(** The body of the two loops of [_cpu] (lines 37-60) at cell (y, x). *)
Definition _cpu_cell (data : ndarray) (y x : Z) : result scalar :=
  do a <- get data (y - 1) (x - 1);
  do b <- get data (y - 1) x;
  do c <- get data (y - 1) (x + 1);
  do d <- get data y (x - 1);
  do f <- get data y (x + 1);
  do g <- get data (y + 1) (x - 1);
  do h <- get data (y + 1) x;
  do i <- get data (y + 1) (x + 1);
  Ok (_cpu_kernel a b c d f g h i).

(** The cells the two loops visit: [y in range(1, rows-1)] and
    [x in range(1, cols-1)]. *)
Definition interior (data : ndarray) (y x : Z) : bool :=
  bool_decide (y ∈ range 1 (fst (shape data) - 1)) &&
  bool_decide (x ∈ range 1 (snd (shape data) - 1)).

Definition _cpu_row (data : ndarray) (cols : Z) (y : Z) (out : ndarray) : result ndarray :=
  for_ (range 1 (cols - 1)) (fun x out =>
    do v <- _cpu_cell data y x;
    set out y x v) out.

Definition _cpu_loops (data : ndarray) (out : ndarray) : result ndarray :=
  let '(rows, cols) := shape data in
  for_ (range 1 (rows - 1)) (_cpu_row data cols) out.

(** [_cpu] (lines 30-62). *)
Definition _cpu (data : ndarray) : result ndarray :=
  let out := zeros_like data in
  let out := fill out NaN in
  _cpu_loops data out.

(** Lines 68-95 of [_gpu]: the value of [aspect] when line 97 is reached,
    on a 3x3 array. *)
Definition _gpu_bearing (arr : ndarray) : result scalar :=
  do a <- get arr 0 0;
  do b <- get arr 0 1;
  do c <- get arr 0 2;
  do d <- get arr 1 0;
  do f <- get arr 1 2;
  do g <- get arr 2 0;
  do h <- get arr 2 1;
  do i <- get arr 2 2;
  let two := Fin 2 in
  let eight := Fin 8 in
  let ninety := Fin 90 in
  let dz_dx := ((c + two * f + i) - (a + two * d + g)) / eight in
  let dz_dy := ((g + two * h + i) - (a + two * b + c)) / eight in
  if (dz_dx ==? Fin 0) && (dz_dy ==? Fin 0) then Ok (Fin (-1))
  else
    let aspect := arctan2 dz_dy (- dz_dx) * Fin 57.29578 in
    if aspect <? Fin 0 then Ok (ninety - aspect)
    else if aspect >? ninety then Ok (Fin 360 - aspect + ninety)
    else Ok (ninety - aspect).

(** [_gpu] (lines 66-100), the device function: lines 68-95, then the
    clamp of lines 97-100. *)
Definition _gpu (arr : ndarray) : result scalar :=
  do aspect <- _gpu_bearing arr;
  if aspect >? Fin 359.999 then Ok (Fin 0) else Ok aspect.

(** *** Names *)

(** What a name of the module can be bound to. *)
Inductive pyobj : Type :=
  | PyModule
  | PyClass
  | PyFunction
  | PyKernel
  | PyDevice (fn : ndarray -> result scalar)
  | PyFloat (v : scalar)
  | PyInt (z : Z)
  | PyShape (s : Z * Z)
  | PyArray (a : ndarray).

Definition namespace : Type := list (string * pyobj).

Fixpoint lookup (name : string) (ns : namespace) : option pyobj :=
  match ns with
  | [] => None
  | (n, o) :: ns' => if String.eqb n name then Some o else lookup name ns'
  end.

(** The names [aspect.py] binds at module level: its imports (lines 1-24),
    [RADIAN] and its functions. *)
Definition module_globals : namespace :=
  [ ("atan2", PyFunction); ("pi", PyFloat (Fin PI)); ("np", PyModule);
    ("nb", PyModule); ("partial", PyClass); ("da", PyModule);
    ("cuda", PyModule); ("xr", PyModule); ("DataArray", PyClass);
    ("ngjit", PyFunction); ("has_cuda", PyFunction);
    ("cuda_args", PyFunction); ("cupy", PyModule);
    ("RADIAN", PyFloat RADIAN); ("_cpu", PyFunction);
    ("_gpu", PyDevice _gpu); ("_run_gpu", PyKernel);
    ("_run_cupy", PyFunction); ("_run_dask_cupy", PyFunction);
    ("_run_numpy", PyFunction); ("_run_dask_numpy", PyFunction);
    ("aspect", PyFunction) ]%string.

(** Reading a name inside a function: its locals, then the module's
    globals, else NameError (none of the names read below is a builtin). *)
Definition load (locals : namespace) (name : string) : result pyobj :=
  match lookup name locals with
  | Some o => Ok o
  | None =>
      match lookup name module_globals with
      | Some o => Ok o
      | None => Raise (NameError name)
      end
  end.

(** *** The device launcher *)

Open Scope Z_scope.

(** The condition of lines 109-110, for the execution unit (i, j). *)
Definition _run_gpu_guard (out : ndarray) (i j : Z) : bool :=
  let di := 1 in
  let dj := 1 in
  (i - di >=? 1) && (i + di <? fst (shape out) - 1) &&
  (j - dj >=? 1) && (j + dj <? snd (shape out) - 1).

(** [_run_gpu] (lines 104-111) as run by the execution unit (i, j). *)
Definition _run_gpu (arr out : ndarray) (i j : Z) : result ndarray :=
  let minus_one := Fin (-1) in
  let di := 1 in
  let dj := 1 in
  let locals := [ ("arr", PyArray arr); ("out", PyArray out);
                  ("minus_one", PyFloat minus_one); ("i", PyInt i);
                  ("j", PyInt j); ("di", PyInt di); ("dj", PyInt dj) ]%string in
  if _run_gpu_guard out i j then
    do callee <- load locals "_gpu_aspect";
    match callee with
    | PyDevice fn =>
        do v <- fn (slice2 arr (i - di) (i + di + 1) (j - dj) (j + dj + 1));
        set out i j v
    | _ => Raise TypeError
    end
  else Ok out.

(** [_run_gpu[griddim, blockdim](args)]: one execution unit per index of
    the launch grid; the units are independent, so they are run in
    sequence.  The kernel takes two arrays. *)
Definition launch_run_gpu (griddim blockdim : Z * Z) (args : list pyobj) : result ndarray :=
  match args with
  | [PyArray arr; PyArray out] =>
      for_ (range 0 (fst griddim * fst blockdim)) (fun i out =>
        for_ (range 0 (snd griddim * snd blockdim)) (fun j out =>
          _run_gpu arr out i j) out) out
  | _ => Raise TypeError
  end.

(** *** The dispatch adapters *)

Section Adapters.

(** [xrspatial.utils.cuda_args], which is not part of [aspect.py]: from a
    shape to the launch configuration (griddim, blockdim). *)
Variable cuda_args : Z * Z -> result ((Z * Z) * (Z * Z)).

(** [_run_cupy] (lines 114-132): lines 123-132, after the padding, are
    [_run_cupy_launch]. *)
Definition _run_cupy_launch (data _data : ndarray) (pad_rows pad_cols : Z) : result ndarray :=
  do config <- cuda_args (shape _data);
  let '(griddim, blockdim) := config in
  let agg := empty (nrows _data) (ncols _data) in
  let agg := fill agg NaN in
  let locals := [ ("data", PyArray data); ("pad_rows", PyInt pad_rows);
                  ("pad_cols", PyInt pad_cols); ("_data", PyArray _data);
                  ("griddim", PyShape griddim); ("blockdim", PyShape blockdim);
                  ("agg", PyArray agg) ]%string in
  do cellsize_x_arr <- load locals "cellsize_x_arr";
  do cellsize_y_arr <- load locals "cellsize_y_arr";
  do agg <- launch_run_gpu griddim blockdim
              [PyArray _data; cellsize_x_arr; cellsize_y_arr; PyArray agg];
  let out := slice2 agg pad_rows (- pad_rows) pad_cols (- pad_cols) in
  Ok out.

Definition _run_cupy (data : ndarray) : result ndarray :=
  let pad_rows := 3 / 2 in
  let pad_cols := 3 / 2 in
  do _data <- np_pad data Reflect;
  _run_cupy_launch data _data pad_rows pad_cols.

End Adapters.

(** [_run_dask_cupy] (lines 135-138): raises before anything else. *)
Definition _run_dask_cupy (data : ndarray) : result ndarray :=
  Raise NotImplementedError.

(** [_run_numpy] (lines 152-154). *)
Definition _run_numpy (data : ndarray) : result ndarray :=
  let out := _cpu data in
  out.

(** A dask array is computed chunk by chunk.  A chunk of an array: its
    rows [row0, row0 + height) and its columns [col0, col0 + width). *)
Record chunk : Type := mk_chunk {
  row0 : nat;
  height : nat;
  col0 : nat;
  width : nat
}.

Definition chunk_inside (ck : chunk) (data : ndarray) : Prop :=
  (row0 ck + height ck <= nrows data)%nat /\ (col0 ck + width ck <= ncols data)%nat.

(** The array held in a single chunk. *)
Definition whole (data : ndarray) : chunk := mk_chunk 0 (nrows data) 0 (ncols data).

(** The block dask's [map_overlap] with depth (1, 1) hands to its function
    for one chunk: the array is extended by one cell on every side
    according to [boundary], and the block is the chunk with one more cell
    on every side, cut out of the extended array, so that inside the array
    the halo of a chunk comes from its neighbour chunks and at the boundary
    of the array from [boundary]. *)
Definition overlap (boundary : pad_mode) (data : ndarray) (ck : chunk) : result ndarray :=
  do extended <- np_pad data boundary;
  Ok (slice2 extended
        (Z.of_nat (row0 ck)) (Z.of_nat (row0 ck + height ck + 2))
        (Z.of_nat (col0 ck)) (Z.of_nat (col0 ck + width ck + 2))).

(** dask's [Array.map_overlap(func, depth=(1, 1), boundary=...)], computed
    for one chunk: [func] is applied to the block with its halo, and the
    halo is trimmed off the result. *)
Definition map_overlap (func : ndarray -> result ndarray) (boundary : pad_mode)
    (data : ndarray) (ck : chunk) : result ndarray :=
  do block <- overlap boundary data ck;
  do computed <- func block;
  Ok (slice2 computed 1 (-1) 1 (-1)).

(** [_run_dask_numpy] (lines 157-164), computed for one chunk. *)
Definition _run_dask_numpy (data : ndarray) (ck : chunk) : result ndarray :=
  let _func := _cpu in
  let out := map_overlap _func (Constant NaN) data ck in
  out.

(** *** The entry point *)

(** How the data of a DataArray is stored: a numpy array, a cupy array, a
    dask array (given by its values), or anything else. *)
Inductive storage : Type :=
  | NumpyArray (a : ndarray)
  | CupyArray (a : ndarray)
  | DaskArray (a : ndarray)
  | OtherStorage.

(** What [aspect] wraps into the DataArray it returns: an array, or for a
    dask input the lazy array, given by the block it computes for each
    chunk. *)
Inductive computed : Type :=
  | Eager (a : ndarray)
  | Lazy (blocks : chunk -> result ndarray).

(** An [xr.DataArray]: its data, its name, and its coordinates, dimensions
    and attributes, which [aspect] hands on without looking into them. *)
Record DataArray (D C Dm At : Type) : Type := mk_DataArray {
  data : D;
  name : string;
  coords : C;
  dims : Dm;
  attrs : At
}.
Arguments mk_DataArray {D C Dm At} data name coords dims attrs.
Arguments data {D C Dm At} d.
Arguments name {D C Dm At} d.
Arguments coords {D C Dm At} d.
Arguments dims {D C Dm At} d.
Arguments attrs {D C Dm At} d.

(** [isinstance(x, np.ndarray)] and [isinstance(x, da.Array)] *)
Definition isinstance_numpy (x : storage) : bool :=
  match x with
  | NumpyArray _ => true
  | _ => false
  end.

Definition isinstance_dask (x : storage) : bool :=
  match x with
  | DaskArray _ => true
  | _ => false
  end.

(** [agg.data] handed to one of the runners. *)
Definition payload (x : storage) : result ndarray :=
  match x with
  | NumpyArray a | CupyArray a | DaskArray a => Ok a
  | OtherStorage => Raise TypeError
  end.

(** Python's [c1 and c2] on conditions that can raise: [c2] is evaluated
    only when [c1] holds. *)
Definition and_then (c1 c2 : result bool) : result bool :=
  do b <- c1; if b then c2 else Ok false.

Section EntryPoint.

(** [xrspatial.utils.cuda_args] and the value of [xrspatial.utils.has_cuda()],
    which are not part of [aspect.py], and whether [import cupy] (lines
    20-24) succeeded. *)
Variable cuda_args : Z * Z -> result ((Z * Z) * (Z * Z)).
Variable has_cuda : bool.
Variable cupy_imported : bool.

(** [isinstance(x, cupy.ndarray)]: when [import cupy] failed,
    [cupy.ndarray] is [False] (line 24) and [isinstance] raises TypeError. *)
Definition isinstance_cupy (x : storage) : result bool :=
  if cupy_imported then
    Ok (match x with CupyArray _ => true | _ => false end)
  else Raise TypeError.

(** [is_cupy_backed(agg)] (line 194): the name is read first; nothing the
    module binds is a predicate on DataArrays. *)
Definition call_is_cupy_backed {C Dm At : Type} (agg : DataArray storage C Dm At)
    (locals : namespace) : result bool :=
  do callee <- load locals "is_cupy_backed";
  Raise TypeError.

(** [aspect] (lines 167-208).  Its two locals are a DataArray and a string;
    reading a name does not look into what they are bound to. *)
Definition aspect {C Dm At : Type} (agg : DataArray storage C Dm At) (name : string)
    : result (DataArray computed C Dm At) :=
  let locals := [ ("agg", PyClass); ("name", PyClass) ]%string in
  do out <-
    (if isinstance_numpy (data agg) then
       do a <- payload (data agg);
       do out <- _run_numpy a;
       Ok (Eager out)
     else
       do cupy_case <- and_then (Ok has_cuda) (isinstance_cupy (data agg));
       if cupy_case then
         do a <- payload (data agg);
         do out <- _run_cupy cuda_args a;
         Ok (Eager out)
       else
         do dask_cupy_case <-
           and_then (Ok has_cuda)
             (and_then (Ok (isinstance_dask (data agg)))
                (call_is_cupy_backed agg locals));
         if dask_cupy_case then
           do a <- payload (data agg);
           do out <- _run_dask_cupy a;
           Ok (Eager out)
         else if isinstance_dask (data agg) then
           do a <- payload (data agg);
           Ok (Lazy (_run_dask_numpy a))
         else Raise TypeError);
  Ok (mk_DataArray out name (coords agg) (dims agg) (attrs agg)).

End EntryPoint.

(** *** Mirror images of a neighbourhood *)

(** West and east exchanged, and north and south exchanged:
<<
      a b c        c b a            a b c        g h i
      d . f   ->   f . d            d . f   ->   d . f
      g h i        i h g            g h i        a b c
>> *)
Definition mirror_we {A : Type} (k : scalar -> scalar -> scalar -> scalar ->
    scalar -> scalar -> scalar -> scalar -> A) (a b c d f g h i : scalar) : A :=
  k c b a f d i h g.

Definition mirror_ns {A : Type} (k : scalar -> scalar -> scalar -> scalar ->
    scalar -> scalar -> scalar -> scalar -> A) (a b c d f g h i : scalar) : A :=
  k g h i d f a b c.

Close Scope Z_scope.

End Aspect.

(* ===================================================================== *)
(** ** The degree conversion on binary64 numbers *)
(* ===================================================================== *)

Module Binary64.

Import PrimFloat.
Open Scope float_scope.

(** [np.pi], the binary64 number nearest to PI. *)
Definition np_pi : float := 0x1.921fb54442d18p+1.

(** [RADIAN = 180 / np.pi] *)
Definition RADIAN : float := 180 / np_pi.

(** Lines 55-60. *)
Definition compass (aspect : float) : float :=
  if aspect <? 0 then 90 - aspect
  else if 90 <? aspect then 360 - aspect + 90
  else 90 - aspect.

Section Kernel.

(** [np.arctan2] on binary64 numbers, supplied by the C library. *)
Variable arctan2 : float -> float -> float.

(** Lines 46-60 of [_cpu]. *)
Definition _cpu_kernel (a b c d f g h i : float) : float :=
  let dz_dx := ((c + 2 * f + i) - (a + 2 * d + g)) / 8 in
  let dz_dy := ((g + 2 * h + i) - (a + 2 * b + c)) / 8 in
  if (dz_dx =? 0) && (dz_dy =? 0) then -1
  else compass (arctan2 dz_dy (- dz_dx) * RADIAN).

End Kernel.

End Binary64.

(* ===================================================================== *)
(** ** Sample inputs *)
(* ===================================================================== *)

Module Scenario.

(** A uniform slope rising to the north. *)
Definition slope_north : ndarray :=
  mk_ndarray 3 3
    [ [Fin 30; Fin 30; Fin 30];
      [Fin 20; Fin 20; Fin 20];
      [Fin 10; Fin 10; Fin 10] ].

(** A steep slope facing a hair west of north. *)
Definition near_north : ndarray :=
  mk_ndarray 3 3
    [ [Fin 0; Fin 0; Fin 0];
      [Fin 0; Fin 0; Fin 0.5];
      [Fin 0; Fin 40000; Fin 0] ].

(** A grid with two rows only. *)
Definition two_rows : ndarray :=
  mk_ndarray 2 3
    [ [Fin 1; Fin 2; Fin 3];
      [Fin 4; Fin 5; Fin 6] ].

(** A padded tile of four rows and four columns. *)
Definition tile44 : ndarray := full 4 4 NaN.

(** The north slope with a peak in its centre. *)
Definition slope_north_peak : ndarray :=
  mk_ndarray 3 3
    [ [Fin 30; Fin 30; Fin 30];
      [Fin 20; Fin 99; Fin 20];
      [Fin 10; Fin 10; Fin 10] ].

(** A launch configuration that does not depend on the shape. *)
Definition one_block (s : Z * Z) : result ((Z * Z) * (Z * Z)) :=
  Ok ((1, 1), (16, 16))%Z.

End Scenario.

(* ===================================================================== *)
(** ** Facts about the exact scalars *)
(* ===================================================================== *)

Section Atan2Facts.

Open Scope R_scope.

Lemma atan_pos (t : R) : 0 < t -> 0 < atan t.
Proof. intros Ht. rewrite <- atan_0. now apply atan_increasing. Qed.

Lemma atan_neg (t : R) : t < 0 -> atan t < 0.
Proof. intros Ht. rewrite <- atan_0. now apply atan_increasing. Qed.

Lemma div_pos_pos (y x : R) : 0 < y -> 0 < x -> 0 < y / x.
Proof. intros Hy Hx. apply Rdiv_lt_0_compat; assumption. Qed.

Lemma div_neg_neg (y x : R) : y < 0 -> x < 0 -> 0 < y / x.
Proof.
  intros Hy Hx. replace (y / x) with ((- y) / (- x)) by (field; lra).
  apply div_pos_pos; lra.
Qed.

Lemma div_pos_neg (y x : R) : 0 < y -> x < 0 -> y / x < 0.
Proof.
  intros Hy Hx. replace (y / x) with (- (y / (- x))) by (field; lra).
  pose proof (div_pos_pos y (- x)). lra.
Qed.

Lemma div_neg_pos (y x : R) : y < 0 -> 0 < x -> y / x < 0.
Proof.
  intros Hy Hx. replace (y / x) with (- ((- y) / x)) by (field; lra).
  pose proof (div_pos_pos (- y) x). lra.
Qed.

(** The five cases of [atan2], as equations. *)
Lemma atan2_right (y x : R) : 0 < x -> atan2 y x = atan (y / x).
Proof. intros Hx. unfold atan2. now rewrite bool_decide_true. Qed.

Lemma atan2_left_down (y x : R) : x < 0 -> y < 0 -> atan2 y x = atan (y / x) - PI.
Proof.
  intros Hx Hy. unfold atan2.
  rewrite bool_decide_false by lra. now rewrite !bool_decide_true.
Qed.

Lemma atan2_left_up (y x : R) : x < 0 -> 0 <= y -> atan2 y x = atan (y / x) + PI.
Proof.
  intros Hx Hy. unfold atan2.
  rewrite bool_decide_false by lra. rewrite bool_decide_true by lra.
  now rewrite bool_decide_false by lra.
Qed.

Lemma atan2_up (y : R) : 0 < y -> atan2 y 0 = PI / 2.
Proof.
  intros Hy. unfold atan2. repeat case_bool_decide; lra.
Qed.

Lemma atan2_down (y : R) : y < 0 -> atan2 y 0 = - (PI / 2).
Proof.
  intros Hy. unfold atan2. repeat case_bool_decide; lra.
Qed.

(** [atan2] returns an angle in (-PI, PI]. *)
Lemma atan2_range (y x : R) : - PI < atan2 y x <= PI.
Proof.
  pose proof PI_RGT_0 as Hpi.
  destruct (Rtotal_order x 0) as [Hx | [Hx | Hx]].
  - destruct (Rlt_le_dec y 0) as [Hy | Hy].
    + rewrite atan2_left_down by assumption.
      pose proof (atan_bound (y / x)). pose proof (atan_pos _ (div_neg_neg y x Hy Hx)). lra.
    + rewrite atan2_left_up by assumption.
      pose proof (atan_bound (y / x)).
      destruct Hy as [Hy | Hy].
      * pose proof (atan_neg _ (div_pos_neg y x Hy Hx)). lra.
      * subst y. unfold Rdiv. rewrite Rmult_0_l, atan_0. lra.
  - subst x. destruct (Rtotal_order y 0) as [Hy | [Hy | Hy]].
    + rewrite atan2_down by assumption. lra.
    + subst y. unfold atan2. rewrite !bool_decide_false by lra. lra.
    + rewrite atan2_up by assumption. lra.
  - rewrite atan2_right by assumption. pose proof (atan_bound (y / x)). lra.
Qed.

(** A quarter turn clockwise of the point (x, y) gives (y, -x): its angle
    drops by PI/2, wrapping around below -PI/2. *)
Lemma atan2_quarter_turn (y x : R) :
  ~ (y = 0 /\ x = 0) ->
  atan2 (- x) y = (if bool_decide (- (PI / 2) < atan2 y x)
                   then atan2 y x - PI / 2
                   else atan2 y x + 3 * (PI / 2)).
Proof.
  intros Hnz. pose proof PI_RGT_0 as Hpi.
  destruct (Rtotal_order x 0) as [Hx | [Hx | Hx]];
    destruct (Rtotal_order y 0) as [Hy | [Hy | Hy]]; subst; try (exfalso; apply Hnz; split; reflexivity).
  - (* x < 0, y < 0 *)
    rewrite (atan2_left_down y x) by assumption.
    rewrite (atan2_left_up (- x) y) by lra.
    pose proof (atan_bound (y / x)) as Hb.
    pose proof (atan_pos _ (div_neg_neg y x Hy Hx)) as Hp.
    rewrite bool_decide_false by lra.
    replace (- x / y) with (- / (y / x)) by (field; lra).
    rewrite atan_opp, atan_inv by (apply div_neg_neg; assumption). lra.
  - (* x < 0, y = 0 *)
    rewrite (atan2_left_up 0 x) by lra.
    rewrite (atan2_up (- x)) by lra.
    unfold Rdiv. rewrite Rmult_0_l, atan_0.
    rewrite bool_decide_true by lra. lra.
  - (* x < 0, y > 0 *)
    rewrite (atan2_left_up y x) by lra.
    rewrite (atan2_right (- x) y) by lra.
    pose proof (atan_bound (y / x)) as Hb.
    rewrite bool_decide_true by lra.
    replace (y / x) with (- / (- x / y)) by (field; lra).
    rewrite atan_opp, atan_inv by (apply div_pos_pos; lra). lra.
  - (* x = 0, y < 0 *)
    rewrite (atan2_down y) by lra. rewrite Ropp_0.
    rewrite (atan2_left_up 0 y) by lra.
    unfold Rdiv. rewrite Rmult_0_l, atan_0.
    rewrite bool_decide_false by lra. lra.
  - (* x = 0, y > 0 *)
    rewrite (atan2_up y) by lra. rewrite Ropp_0.
    rewrite (atan2_right 0 y) by lra.
    unfold Rdiv. rewrite Rmult_0_l, atan_0.
    rewrite bool_decide_true by lra. lra.
  - (* x > 0, y < 0 *)
    rewrite (atan2_right y x) by lra.
    rewrite (atan2_left_down (- x) y) by lra.
    pose proof (atan_bound (y / x)) as Hb.
    rewrite bool_decide_true by lra.
    replace (- x / y) with (/ (- (y / x))) by (field; lra).
    pose proof (div_neg_pos y x Hy Hx).
    rewrite atan_inv, atan_opp by lra. lra.
  - (* x > 0, y = 0 *)
    rewrite (atan2_right 0 x) by lra.
    rewrite (atan2_down (- x)) by lra.
    unfold Rdiv. rewrite Rmult_0_l, atan_0.
    rewrite bool_decide_true by lra. lra.
  - (* x > 0, y > 0 *)
    rewrite (atan2_right y x) by lra.
    rewrite (atan2_right (- x) y) by lra.
    pose proof (atan_bound (y / x)) as Hb.
    rewrite bool_decide_true by lra.
    replace (- x / y) with (- / (y / x)) by (field; lra).
    rewrite atan_opp, atan_inv by (apply div_pos_pos; lra). lra.
Qed.

End Atan2Facts.

(* ===================================================================== *)
(** ** The kernel of [_cpu] on real neighbours *)
(* ===================================================================== *)

Import Aspect.

Section KernelFacts.

Open Scope R_scope.

Lemma atan_lt_id (x : R) : 0 < x -> atan x < x.
Proof.
  intros Hx.
  assert (Hd : derivable (id - atan)%F).
  { apply derivable_minus; [apply derivable_id | intro t; apply derivable_pt_atan]. }
  assert (Hinc : (id - atan)%F 0 < (id - atan)%F x).
  { apply (derive_increasing_interv 0 (x + 1) _ Hd); try lra.
    intros t Ht.
    assert (Hlim : derivable_pt_lim (id - atan)%F t (1 - / (1 + t ^ 2))).
    { apply derivable_pt_lim_minus; [apply derivable_pt_lim_id | apply derivable_pt_lim_atan]. }
    rewrite (derive_pt_eq_0 _ _ _ (Hd t) Hlim).
    assert (1 < 1 + t ^ 2) by nra.
    assert (/ (1 + t ^ 2) < / 1) by (apply Rinv_lt_contravar; lra).
    lra. }
  unfold minus_fct, id in Hinc. rewrite atan_0 in Hinc. lra.
Qed.

Lemma degrees_scale : 0 < 180 / PI /\ PI * (180 / PI) = 180.
Proof.
  pose proof PI_RGT_0 as Hpi. split.
  - apply Rdiv_lt_0_compat; lra.
  - field. lra.
Qed.

Lemma degrees_range (y x : R) : -180 < degrees y x <= 180.
Proof.
  unfold degrees. destruct degrees_scale as [Hk Hpk].
  pose proof (atan2_range y x) as [Hlo Hhi].
  set (k := 180 / PI) in *. nra.
Qed.

Lemma bearing_range (t : R) : -180 < t <= 180 -> 0 <= bearing t < 360.
Proof.
  intros Ht. unfold bearing. repeat case_bool_decide; lra.
Qed.

(** The kernel on real neighbours, in closed form. *)
Lemma _cpu_kernel_real (a b c d f g h i : R) :
  _cpu_kernel (Fin a) (Fin b) (Fin c) (Fin d) (Fin f) (Fin g) (Fin h) (Fin i) =
  if bool_decide (dz_dx_real a c d f g i = 0) && bool_decide (dz_dy_real a b c g h i = 0)
  then Fin (-1)
  else Fin (bearing (degrees (dz_dy_real a b c g h i) (- dz_dx_real a c d f g i))).
Proof.
  unfold _cpu_kernel, _cpu_branch, horn_dz_dx, horn_dz_dy. cbn.
  fold (dz_dx_real a c d f g i). fold (dz_dy_real a b c g h i).
  destruct (bool_decide (dz_dx_real a c d f g i = 0) && bool_decide (dz_dy_real a b c g h i = 0));
    [reflexivity |].
  unfold compass, RADIAN. cbn. unfold bearing, degrees.
  repeat case_bool_decide; reflexivity.
Qed.

(** In exact arithmetic the value written for real neighbours is -1 or lies
    in [0, 360): the bound 360 is strict before rounding. *)
Lemma _cpu_kernel_real_range (a b c d f g h i : R) :
  exists v : R,
    _cpu_kernel (Fin a) (Fin b) (Fin c) (Fin d) (Fin f) (Fin g) (Fin h) (Fin i) = Fin v /\
    (v = -1 \/ 0 <= v < 360).
Proof.
  rewrite _cpu_kernel_real.
  destruct (_ && _).
  - exists (-1). auto.
  - eexists. split; [reflexivity |]. right. apply bearing_range, degrees_range.
Qed.

(** Turning the direction (x, y) a quarter turn clockwise adds 90 degrees to
    the bearing, modulo 360. *)
Lemma bearing_quarter_turn (y x : R) :
  ~ (y = 0 /\ x = 0) ->
  bearing (degrees (- x) y) = bearing (degrees y x) + 90 \/
  bearing (degrees (- x) y) = bearing (degrees y x) + 90 - 360.
Proof.
  intros Hnz. destruct degrees_scale as [Hk Hpk].
  pose proof (degrees_range y x) as Hr.
  assert (Hturn : degrees (- x) y = degrees y x - 90 /\ -90 < degrees y x \/
                  degrees (- x) y = degrees y x + 270 /\ degrees y x <= -90).
  { unfold degrees in *. rewrite (atan2_quarter_turn y x Hnz).
    set (k := 180 / PI) in *. set (t := atan2 y x) in *.
    case_bool_decide; [left | right]; split; nra. }
  unfold bearing.
  destruct Hturn as [[-> Hc] | [-> Hc]]; repeat case_bool_decide; lra.
Qed.

End KernelFacts.

(* ===================================================================== *)
(** ** Arrays: reading, writing, loops *)
(* ===================================================================== *)

Section GridFacts.

Open Scope Z_scope.

Lemma index_in (n : nat) (i : Z) :
  0 <= i < Z.of_nat n -> index n i = Ok (Z.to_nat i).
Proof.
  intros [H0 H1]. unfold index.
  rewrite (proj2 (Z.ltb_ge i 0)) by lia.
  rewrite (proj2 (Z.leb_le 0 i)), (proj2 (Z.ltb_lt i _)) by lia.
  reflexivity.
Qed.

Lemma cell_wf (a : ndarray) (iy ix : nat) :
  wf a -> (iy < nrows a)%nat -> (ix < ncols a)%nat -> exists v, cell a iy ix = Some v.
Proof.
  intros [Hlen Hrows] Hy Hx. unfold cell.
  destruct (lookup_lt_is_Some_2 (cells a) iy) as [row Hrow]; [lia |].
  rewrite Hrow. apply lookup_lt_is_Some_2.
  rewrite (Forall_lookup_1 _ _ _ _ Hrows Hrow). exact Hx.
Qed.

Lemma get_cell (a : ndarray) (y x : Z) :
  in_grid a y x ->
  get a y x = match cell a (Z.to_nat y) (Z.to_nat x) with
              | Some v => Ok v
              | None => Raise IndexError
              end.
Proof.
  intros [Hy Hx]. unfold get. rewrite !index_in by assumption. reflexivity.
Qed.

Lemma get_in (a : ndarray) (y x : Z) :
  wf a -> in_grid a y x -> exists v, get a y x = Ok v.
Proof.
  intros Hwf Hin. rewrite (get_cell a y x Hin).
  destruct Hin as [Hy Hx].
  destruct (cell_wf a (Z.to_nat y) (Z.to_nat x) Hwf) as [v ->]; [lia | lia |].
  eauto.
Qed.

(** Writing a cell inside the array succeeds, keeps the shape, is read
    back, and leaves every other cell as it was. *)
Lemma set_in (a : ndarray) (y x : Z) (v : scalar) :
  wf a -> in_grid a y x ->
  exists a', set a y x v = Ok a' /\ wf a' /\ same_shape a' a /\
    get a' y x = Ok v /\
    (forall y' x', in_grid a y' x' -> (y', x') <> (y, x) -> get a' y' x' = get a y' x').
Proof.
  intros Hwf Hin. pose proof Hin as [Hy Hx]. destruct Hwf as [Hlen Hrows].
  unfold set. rewrite !index_in by assumption. cbn.
  eexists. split; [reflexivity |].
  set (a' := mk_ndarray _ _ _).
  assert (Hwf' : wf a').
  { split; cbn.
    - rewrite length_alter. exact Hlen.
    - apply Forall_alter; [exact Hrows |].
      intros row _ Hrow. rewrite length_insert. exact Hrow. }
  assert (Hin' : forall y' x', in_grid a y' x' -> in_grid a' y' x') by (intros ? ? H; exact H).
  split; [exact Hwf' |]. split; [split; reflexivity |]. split.
  - rewrite (get_cell a' y x (Hin' _ _ Hin)). unfold cell. cbn.
    rewrite list_lookup_alter_eq.
    destruct (lookup_lt_is_Some_2 (cells a) (Z.to_nat y)) as [row Hrow]; [lia |].
    rewrite Hrow. cbn. rewrite list_lookup_insert_eq; [reflexivity |].
    rewrite (Forall_lookup_1 _ _ _ _ Hrows Hrow). lia.
  - intros y' x' Hin2 Hne. pose proof Hin2 as [Hy' Hx'].
    rewrite (get_cell a' y' x' (Hin' _ _ Hin2)), (get_cell a y' x' Hin2).
    unfold cell. cbn.
    destruct (decide (Z.to_nat y = Z.to_nat y')) as [Heq | Hney].
    + rewrite <- Heq, list_lookup_alter_eq.
      destruct (cells a !! Z.to_nat y) as [row |]; cbn; [| reflexivity].
      rewrite list_lookup_insert_ne; [reflexivity |].
      intros Hxx. apply Hne. f_equal; lia.
    + rewrite list_lookup_alter_ne by assumption. reflexivity.
Qed.

Lemma full_wf (rows cols : nat) (v : scalar) : wf (full rows cols v).
Proof.
  split; cbn.
  - apply length_replicate.
  - apply Forall_replicate, length_replicate.
Qed.

Lemma fill_wf (a : ndarray) (v : scalar) : wf a -> wf (fill a v).
Proof.
  intros [Hlen Hrows]. split; cbn.
  - rewrite length_map. exact Hlen.
  - apply Forall_fmap. eapply Forall_impl; [exact Hrows |].
    intros row Hrow. cbn. rewrite length_map. exact Hrow.
Qed.

(** After [a[:] = v] every cell reads [v]. *)
Lemma get_fill (a : ndarray) (v : scalar) (y x : Z) :
  wf a -> in_grid a y x -> get (fill a v) y x = Ok v.
Proof.
  intros Hwf Hin. pose proof Hin as [Hy Hx].
  rewrite (get_cell (fill a v) y x Hin).
  destruct (cell_wf a (Z.to_nat y) (Z.to_nat x) Hwf) as [w Hw]; [lia | lia |].
  unfold cell in *. cbn.
  change (map (map (fun _ : scalar => v)) (cells a))
    with ((fun row : list scalar => (fun _ : scalar => v) <$> row) <$> cells a).
  rewrite list_lookup_fmap.
  destruct (cells a !! Z.to_nat y) as [row |]; [| discriminate]. cbn.
  rewrite list_lookup_fmap, Hw. reflexivity.
Qed.

(** A loop with an invariant [I] over the list of the iterations done. *)
Lemma for_invariant {S : Type} (I : list Z -> S -> Prop)
    (body : Z -> S -> result S) (xs : list Z) (s : S) :
  I [] s ->
  (forall pre x s0, x ∈ xs -> I pre s0 ->
     exists s1, body x s0 = Ok s1 /\ I (pre ++ [x]) s1) ->
  exists s', for_ xs body s = Ok s' /\ I xs s'.
Proof.
  intros H0 Hstep.
  cut (forall todo pre s0, (forall x, x ∈ todo -> x ∈ xs) -> I pre s0 ->
         exists s', for_ todo body s0 = Ok s' /\ I (pre ++ todo) s').
  { intros Hgen. apply (Hgen xs [] s); auto. }
  induction todo as [| x todo IH]; intros pre s0 Hsub Hpre.
  - exists s0. rewrite app_nil_r. auto.
  - destruct (Hstep pre x s0) as (s1 & Hb & Hs1); [apply Hsub; left | exact Hpre |].
    destruct (IH (pre ++ [x]) s1) as (s2 & Hf & Hs2);
      [intros z Hz; apply Hsub; right; exact Hz | exact Hs1 |].
    exists s2. cbn. rewrite Hb. cbn. split; [exact Hf |].
    rewrite <- app_assoc in Hs2. exact Hs2.
Qed.

(** A loop whose body changes nothing returns its state. *)
Lemma for_skip {S : Type} (body : Z -> S -> result S) (xs : list Z) (s : S) :
  (forall x s0, x ∈ xs -> body x s0 = Ok s0) -> for_ xs body s = Ok s.
Proof.
  induction xs as [| x xs IH]; intros Hbody; [reflexivity |].
  cbn. rewrite Hbody by left. cbn. apply IH.
  intros z s0 Hz. apply Hbody. right. exact Hz.
Qed.

Lemma elem_of_range (lo hi k : Z) : k ∈ range lo hi <-> lo <= k < hi.
Proof. unfold range. rewrite elem_of_seqZ. lia. Qed.

End GridFacts.

(* ===================================================================== *)
(** ** The sequential evaluator [_cpu] *)
(* ===================================================================== *)

Section CpuFacts.

Open Scope Z_scope.

Lemma interior_spec (data : ndarray) (y x : Z) :
  interior data y x = true <->
  1 <= y <= Z.of_nat (nrows data) - 2 /\ 1 <= x <= Z.of_nat (ncols data) - 2.
Proof.
  unfold interior, shape. cbn.
  rewrite andb_true_iff, !bool_decide_eq_true, !elem_of_range. lia.
Qed.

Lemma in_grid_same_shape (a b : ndarray) (y x : Z) :
  same_shape a b -> in_grid b y x -> in_grid a y x.
Proof. intros [Hr Hc]. unfold in_grid. rewrite Hr, Hc. auto. Qed.

(** At an interior cell all eight neighbours are read without error, and
    the body of the loops yields the kernel's value on them. *)
Lemma _cpu_cell_interior (data : ndarray) (y x : Z) :
  wf data -> interior data y x = true ->
  exists a b c d f g h i,
    get data (y - 1) (x - 1) = Ok a /\ get data (y - 1) x = Ok b /\
    get data (y - 1) (x + 1) = Ok c /\ get data y (x - 1) = Ok d /\
    get data y (x + 1) = Ok f /\ get data (y + 1) (x - 1) = Ok g /\
    get data (y + 1) x = Ok h /\ get data (y + 1) (x + 1) = Ok i /\
    _cpu_cell data y x = Ok (_cpu_kernel a b c d f g h i).
Proof.
  intros Hwf Hint. apply interior_spec in Hint.
  assert (Hin : forall dy dx, -1 <= dy <= 1 -> -1 <= dx <= 1 ->
                  exists v, get data (y + dy) (x + dx) = Ok v).
  { intros dy dx Hdy Hdx. apply get_in; [exact Hwf |]. unfold in_grid. lia. }
  destruct (Hin (-1) (-1)) as [a Ha]; [lia | lia |].
  destruct (Hin (-1) 0) as [b Hb]; [lia | lia |].
  destruct (Hin (-1) 1) as [c Hc]; [lia | lia |].
  destruct (Hin 0 (-1)) as [d Hd]; [lia | lia |].
  destruct (Hin 0 1) as [f Hf]; [lia | lia |].
  destruct (Hin 1 (-1)) as [g Hg]; [lia | lia |].
  destruct (Hin 1 0) as [h Hh]; [lia | lia |].
  destruct (Hin 1 1) as [i Hi]; [lia | lia |].
  rewrite ?Z.add_0_r in *.
  change (y + -1) with (y - 1) in *. change (x + -1) with (x - 1) in *.
  exists a, b, c, d, f, g, h, i.
  unfold _cpu_cell. rewrite Ha, Hb, Hc, Hd, Hf, Hg, Hh, Hi. cbn.
  repeat split; reflexivity.
Qed.

(** One pass of the inner loop: row [y] of the output receives the kernel's
    values at its interior columns, everything else is untouched. *)
Lemma _cpu_row_spec (data out : ndarray) (y : Z) :
  wf data -> wf out -> same_shape out data ->
  y ∈ range 1 (fst (shape data) - 1) ->
  exists out',
    _cpu_row data (snd (shape data)) y out = Ok out' /\ wf out' /\ same_shape out' data /\
    forall y' x', in_grid data y' x' ->
      get out' y' x' =
      if bool_decide (y' = y) && bool_decide (x' ∈ range 1 (snd (shape data) - 1))
      then _cpu_cell data y x' else get out y' x'.
Proof.
  intros Hwf Hwfo Hshape Hy. unfold _cpu_row.
  set (I := fun (done : list Z) (o : ndarray) =>
    wf o /\ same_shape o data /\
    forall y' x', in_grid data y' x' ->
      get o y' x' = if bool_decide (y' = y) && bool_decide (x' ∈ done)
                    then _cpu_cell data y x' else get out y' x').
  destruct (for_invariant I
    (fun x o => do v <- _cpu_cell data y x; set o y x v)
    (range 1 (snd (shape data) - 1)) out) as (out' & Hrun & Hwf' & Hshape' & Hget).
  - split; [exact Hwfo |]. split; [exact Hshape |].
    intros y' x' _. rewrite (bool_decide_false (x' ∈ [])) by apply not_elem_of_nil.
    rewrite andb_false_r. reflexivity.
  - intros pre x s0 Hx (Hwf0 & Hshape0 & Hget0).
    assert (Hint : interior data y x = true).
    { unfold interior. rewrite !bool_decide_true by assumption. reflexivity. }
    destruct (_cpu_cell_interior data y x Hwf Hint)
      as (a & b & c & d & f & g & h & i & _ & _ & _ & _ & _ & _ & _ & _ & Hcell).
    assert (Hyx : in_grid data y x).
    { apply interior_spec in Hint. unfold in_grid. lia. }
    destruct (set_in s0 y x (_cpu_kernel a b c d f g h i) Hwf0
                (in_grid_same_shape _ _ _ _ Hshape0 Hyx))
      as (s1 & Hset & Hwf1 & Hshape1 & Hread & Hother).
    exists s1. rewrite Hcell. cbn. split; [exact Hset |].
    split; [exact Hwf1 |]. split.
    { unfold same_shape in *. lia. }
    intros y' x' Hin.
    destruct (decide ((y', x') = (y, x))) as [Heq | Hne].
    + injection Heq as -> ->. rewrite Hread, Hcell.
      rewrite bool_decide_true by reflexivity.
      rewrite bool_decide_true by (apply elem_of_app; right; apply list_elem_of_singleton; reflexivity).
      reflexivity.
    + rewrite (Hother y' x' (in_grid_same_shape _ _ _ _ Hshape0 Hin) Hne), (Hget0 y' x' Hin).
      destruct (decide (y' = y)) as [-> | Hney].
      * assert (x' <> x) by congruence.
        rewrite (bool_decide_ext (x' ∈ pre ++ [x]) (x' ∈ pre)); [reflexivity |].
        rewrite elem_of_app, list_elem_of_singleton. tauto.
      * rewrite !(bool_decide_false (y' = y)) by assumption. reflexivity.
  - exists out'. auto.
Qed.

(** The two loops: every interior cell receives the kernel's value, every
    other cell is untouched. *)
Lemma _cpu_loops_spec (data out : ndarray) :
  wf data -> wf out -> same_shape out data ->
  exists out',
    _cpu_loops data out = Ok out' /\ wf out' /\ same_shape out' data /\
    forall y x, in_grid data y x ->
      get out' y x = if interior data y x then _cpu_cell data y x else get out y x.
Proof.
  intros Hwf Hwfo Hshape. unfold _cpu_loops.
  change (let '(rows, cols) := shape data in
          for_ (range 1 (rows - 1)) (_cpu_row data cols) out)
    with (for_ (range 1 (fst (shape data) - 1)) (_cpu_row data (snd (shape data))) out).
  set (I := fun (done : list Z) (o : ndarray) =>
    wf o /\ same_shape o data /\
    forall y x, in_grid data y x ->
      get o y x = if bool_decide (y ∈ done) && bool_decide (x ∈ range 1 (snd (shape data) - 1))
                  then _cpu_cell data y x else get out y x).
  destruct (for_invariant I (_cpu_row data (snd (shape data)))
    (range 1 (fst (shape data) - 1)) out) as (out' & Hrun & Hwf' & Hshape' & Hget).
  - split; [exact Hwfo |]. split; [exact Hshape |].
    intros y x _. rewrite (bool_decide_false (y ∈ [])) by apply not_elem_of_nil.
    reflexivity.
  - intros pre y s0 Hy (Hwf0 & Hshape0 & Hget0).
    destruct (_cpu_row_spec data s0 y Hwf Hwf0 Hshape0 Hy)
      as (s1 & Hrow & Hwf1 & Hshape1 & Hget1).
    exists s1. split; [exact Hrow |]. split; [exact Hwf1 |]. split; [exact Hshape1 |].
    intros y' x' Hin. rewrite (Hget1 y' x' Hin), (Hget0 y' x' Hin).
    destruct (decide (y' = y)) as [-> | Hney].
    + rewrite (bool_decide_true (y = y)) by reflexivity.
      rewrite (bool_decide_true (y ∈ pre ++ [y]))
        by (apply elem_of_app; right; apply list_elem_of_singleton; reflexivity).
      destruct (bool_decide (x' ∈ range 1 (snd (shape data) - 1))); cbn; [reflexivity |].
      rewrite andb_false_r. reflexivity.
    + rewrite (bool_decide_false (y' = y)) by assumption. cbn.
      rewrite (bool_decide_ext (y' ∈ pre ++ [y]) (y' ∈ pre)); [reflexivity |].
      rewrite elem_of_app, list_elem_of_singleton. tauto.
  - exists out'. split; [exact Hrun |]. split; [exact Hwf' |]. split; [exact Hshape' |].
    exact Hget.
Qed.

Lemma zeros_like_shape (data : ndarray) : same_shape (fill (zeros_like data) NaN) data.
Proof. split; reflexivity. Qed.

(** [_cpu] on any array: it returns an array of the same shape whose
    interior cells hold the kernel's values and whose other cells hold NaN. *)
Lemma _cpu_spec (data : ndarray) :
  wf data ->
  exists out,
    _cpu data = Ok out /\ wf out /\ same_shape out data /\
    forall y x, in_grid data y x ->
      get out y x = if interior data y x then _cpu_cell data y x else Ok NaN.
Proof.
  intros Hwf. unfold _cpu.
  assert (Hwf0 : wf (fill (zeros_like data) NaN)) by apply fill_wf, full_wf.
  destruct (_cpu_loops_spec data _ Hwf Hwf0 (zeros_like_shape data))
    as (out & Hrun & Hwfo & Hshape & Hget).
  exists out. split; [exact Hrun |]. split; [exact Hwfo |]. split; [exact Hshape |].
  intros y x Hin. rewrite (Hget y x Hin).
  destruct (interior data y x); [reflexivity |].
  apply get_fill; [apply full_wf | exact Hin].
Qed.

End CpuFacts.

(* ===================================================================== *)
(** ** Padding and trimming *)
(* ===================================================================== *)

Section PadFacts.

Open Scope nat_scope.

Lemma const1_length {A : Type} (v : A) (l : list A) : length (const1 v l) = length l + 2.
Proof. unfold const1. cbn. rewrite length_app. cbn. lia. Qed.

Lemma const1_lookup {A : Type} (v : A) (l : list A) (k : nat) :
  k < length l + 2 ->
  const1 v l !! k = if (k =? 0) || (k =? length l + 1) then Some v else l !! (k - 1).
Proof.
  intros Hk. unfold const1. destruct k as [| k]; [reflexivity |].
  change (S k =? 0) with false. cbn [orb].
  rewrite lookup_cons_ne_0 by lia. cbn [pred].
  replace (S k - 1) with k by lia.
  destruct (Nat.eqb_spec (S k) (length l + 1)) as [Heq | Hne].
  - rewrite lookup_app_r by lia. replace (k - length l) with 0 by lia. reflexivity.
  - rewrite lookup_app_l by lia. reflexivity.
Qed.

Lemma reflect1_length {A : Type} (l : list A) : l <> [] -> length (reflect1 l) = length l + 2.
Proof.
  intros Hl. destruct l as [| x0 l']; [congruence |].
  unfold reflect1. cbn [length]. rewrite length_app. cbn. lia.
Qed.

Lemma reflect1_lookup {A : Type} (l : list A) (k : nat) :
  l <> [] -> k < length l + 2 -> reflect1 l !! k = l !! mirror (length l) k.
Proof.
  intros Hl Hk. destruct l as [| x0 l']; [congruence |].
  unfold reflect1, mirror. set (l := x0 :: l') in *.
  assert (Hlen : length l = S (length l')) by reflexivity.
  destruct k as [| k].
  - cbn [Nat.eqb lookup list_lookup]. destruct (Nat.leb_spec 2 (length l)) as [Hge | Hlt].
    + destruct (lookup_lt_is_Some_2 l 1) as [z Hz]; [lia |]. rewrite Hz. reflexivity.
    + rewrite (lookup_ge_None_2 l 1) by lia. reflexivity.
  - change (S k =? 0) with false. cbn iota.
    rewrite lookup_cons_ne_0 by lia. cbn [pred].
    destruct (Nat.eqb_spec (S k) (length l + 1)) as [Heq | Hne].
    + rewrite lookup_app_r by lia. replace (k - length l) with 0 by lia.
      destruct (lookup_lt_is_Some_2 l (length l - 2)) as [z Hz]; [lia |].
      rewrite Hz. reflexivity.
    + rewrite lookup_app_l by lia. replace (S k - 1) with k by lia. reflexivity.
Qed.

(** Padding with a constant: the shape grows by two, the halo holds the
    constant and the rest is the array. *)
Lemma np_pad_constant_spec (a : ndarray) (v : scalar) :
  wf a ->
  exists ext,
    np_pad a (Constant v) = Ok ext /\ wf ext /\
    nrows ext = nrows a + 2 /\ ncols ext = ncols a + 2 /\
    forall y x, y < nrows a + 2 -> x < ncols a + 2 ->
      cell ext y x = if halo (nrows a) (ncols a) y x then Some v else cell a (y - 1) (x - 1).
Proof.
  intros [Hlen Hrows]. eexists. split; [reflexivity |].
  assert (Hrows' : Forall (fun r : list scalar => length r = ncols a)
                     (const1 (replicate (ncols a) v) (cells a))).
  { unfold const1. constructor; [apply length_replicate |].
    apply Forall_app. split; [exact Hrows |].
    constructor; [apply length_replicate | constructor]. }
  split; [| split; [reflexivity | split; [reflexivity |]]].
  - split; cbn [cells nrows ncols].
    + rewrite length_map, const1_length. lia.
    + apply Forall_fmap. eapply Forall_impl; [exact Hrows' |].
      intros r Hr. unfold compose. cbv beta in Hr. rewrite const1_length. lia.
  - intros y x Hy Hx. unfold cell, halo. cbn [cells nrows ncols].
    change (map (const1 v) ?l) with (const1 v <$> l).
    rewrite list_lookup_fmap, const1_lookup by lia. rewrite Hlen.
    destruct ((y =? 0) || (y =? nrows a + 1)) eqn:Hhy; cbn.
    + rewrite const1_lookup by (rewrite length_replicate; lia).
      rewrite length_replicate.
      destruct ((x =? 0) || (x =? ncols a + 1)) eqn:Hhx.
      * reflexivity.
      * apply orb_false_iff in Hhx as [Hx0 Hx1].
        apply Nat.eqb_neq in Hx0, Hx1.
        rewrite lookup_replicate_2 by lia. reflexivity.
    + destruct (cells a !! (y - 1)) as [row |] eqn:Hrow; cbn.
      * rewrite const1_lookup by (rewrite (Forall_lookup_1 _ _ _ _ Hrows Hrow); lia).
        rewrite (Forall_lookup_1 _ _ _ _ Hrows Hrow).
        reflexivity.
      * apply orb_false_iff in Hhy as [Hy0 Hy1].
        apply Nat.eqb_neq in Hy0, Hy1.
        apply lookup_ge_None_1 in Hrow. lia.
Qed.

(** Padding in mode "reflect", for an array with no empty axis: the shape
    grows by two and every cell of the result is the mirrored cell of the
    array. *)
Lemma np_pad_reflect_spec (a : ndarray) :
  wf a -> 0 < nrows a -> 0 < ncols a ->
  exists ext,
    np_pad a Reflect = Ok ext /\ wf ext /\
    nrows ext = nrows a + 2 /\ ncols ext = ncols a + 2 /\
    forall y x, y < nrows a + 2 -> x < ncols a + 2 ->
      cell ext y x = cell a (mirror (nrows a) y) (mirror (ncols a) x).
Proof.
  intros [Hlen Hrows] Hr Hc. unfold np_pad.
  destruct (Nat.eqb_spec (nrows a) 0) as [? | _]; [lia |].
  destruct (Nat.eqb_spec (ncols a) 0) as [? | _]; [lia |]. cbn [orb].
  eexists. split; [reflexivity |].
  assert (Hne : cells a <> []) by (intros Hnil; rewrite Hnil in Hlen; cbn in Hlen; lia).
  assert (Hrows' : Forall (fun r : list scalar => length r = ncols a) (reflect1 (cells a))).
  { apply Forall_lookup_2. intros k r Hk.
    assert (k < length (reflect1 (cells a))) by (eapply lookup_lt_Some; exact Hk).
    rewrite reflect1_length in * by assumption.
    rewrite reflect1_lookup in Hk by (assumption || lia).
    exact (Forall_lookup_1 _ _ _ _ Hrows Hk). }
  assert (Hrow_ne : forall r : list scalar, length r = ncols a -> r <> []).
  { intros r Hlr ->. cbn in Hlr. lia. }
  split; [| split; [reflexivity | split; [reflexivity |]]].
  - split; cbn [cells nrows ncols].
    + rewrite length_map, reflect1_length by assumption. lia.
    + apply Forall_fmap. eapply Forall_impl; [exact Hrows' |].
      intros r Hlr. unfold compose. cbv beta in Hlr.
      rewrite reflect1_length by (apply Hrow_ne; exact Hlr). lia.
  - intros y x Hy Hx. unfold cell. cbn [cells nrows ncols].
    change (map reflect1 ?l) with (reflect1 <$> l).
    rewrite list_lookup_fmap, reflect1_lookup by (assumption || lia). rewrite Hlen.
    destruct (cells a !! mirror (nrows a) y) as [row |] eqn:Hrow; cbn; [| reflexivity].
    pose proof (Forall_lookup_1 _ _ _ _ Hrows Hrow) as Hlr. cbn in Hlr.
    rewrite reflect1_lookup by (try apply Hrow_ne; lia). rewrite Hlr. reflexivity.
Qed.

Lemma np_pad_reflect_empty (a : ndarray) :
  nrows a = 0 \/ ncols a = 0 -> np_pad a Reflect = Raise ValueError.
Proof.
  intros [H | H]; unfold np_pad; rewrite H; [reflexivity |].
  rewrite orb_true_r. reflexivity.
Qed.

(** Trimming one cell on every side, [a[1:-1, 1:-1]]. *)
Lemma trim_shape (a : ndarray) :
  nrows (slice2 a 1 (-1) 1 (-1)) = nrows a - 2 /\
  ncols (slice2 a 1 (-1) 1 (-1)) = ncols a - 2.
Proof. unfold slice2, slice_bound. cbn. lia. Qed.

Lemma trim_wf (a : ndarray) : wf a -> wf (slice2 a 1 (-1) 1 (-1)).
Proof.
  intros [Hlen Hrows]. pose proof (trim_shape a) as [Hr Hc].
  split.
  - rewrite Hr. cbn. unfold sublist, slice_bound. cbn.
    rewrite length_map, length_take, length_drop. lia.
  - rewrite Hc. cbn. apply Forall_fmap.
    apply Forall_take, Forall_drop.
    eapply Forall_impl; [exact Hrows |].
    intros r Hlr. unfold compose, sublist. cbv beta in Hlr.
    rewrite length_take, length_drop. lia.
Qed.

Lemma slice_bound_nat (n k : nat) : slice_bound n (Z.of_nat k) = Nat.min k n.
Proof.
  unfold slice_bound. rewrite (proj2 (Z.ltb_ge _ _)) by lia.
  rewrite Nat2Z.id. reflexivity.
Qed.

(** A window cut out of an array, [a[r0:r0+h, c0:c0+w]]. *)
Lemma slice2_window (a : ndarray) (r0 h c0 w : nat) :
  wf a -> r0 + h <= nrows a -> c0 + w <= ncols a ->
  exists s,
    slice2 a (Z.of_nat r0) (Z.of_nat (r0 + h)) (Z.of_nat c0) (Z.of_nat (c0 + w)) = s /\
    wf s /\ nrows s = h /\ ncols s = w /\
    forall y x, y < h -> x < w -> cell s y x = cell a (r0 + y) (c0 + x).
Proof.
  intros [Hlen Hrows] Hr Hc. eexists. split; [reflexivity |].
  unfold slice2. rewrite !slice_bound_nat.
  replace (Nat.min r0 (nrows a)) with r0 by lia.
  replace (Nat.min (r0 + h) (nrows a)) with (r0 + h) by lia.
  replace (Nat.min c0 (ncols a)) with c0 by lia.
  replace (Nat.min (c0 + w) (ncols a)) with (c0 + w) by lia.
  replace (r0 + h - r0) with h by lia. replace (c0 + w - c0) with w by lia.
  unfold sublist.
  replace (r0 + h - r0) with h by lia. replace (c0 + w - c0) with w by lia.
  split; [| split; [reflexivity | split; [reflexivity |]]].
  - split; cbn [cells nrows ncols].
    + rewrite length_map, length_take, length_drop. lia.
    + apply Forall_fmap, Forall_take, Forall_drop.
      eapply Forall_impl; [exact Hrows |].
      intros r Hlr. unfold compose. cbv beta in Hlr.
      rewrite length_take, length_drop. lia.
  - intros y x Hy Hx. unfold cell. cbn [cells].
    change (map ?g ?l) with (g <$> l).
    rewrite list_lookup_fmap, lookup_take_lt, lookup_drop by lia.
    destruct (cells a !! (r0 + y)) as [row |]; cbn; [| reflexivity].
    rewrite lookup_take_lt, lookup_drop by lia. reflexivity.
Qed.

(** The block of a chunk with its halo, for a constant boundary: the halo
    cells on the boundary of the array hold the constant, every other cell
    of the block is the cell of the array at its place. *)
Lemma overlap_constant_spec (data : ndarray) (ck : chunk) (v : scalar) :
  wf data -> chunk_inside ck data ->
  exists block,
    overlap (Constant v) data ck = Ok block /\ wf block /\
    nrows block = height ck + 2 /\ ncols block = width ck + 2 /\
    forall y x, y < height ck + 2 -> x < width ck + 2 ->
      cell block y x =
      if halo (nrows data) (ncols data) (row0 ck + y) (col0 ck + x) then Some v
      else cell data (row0 ck + y - 1) (col0 ck + x - 1).
Proof.
  intros Hwf [Hr Hc].
  destruct (np_pad_constant_spec data v Hwf) as (ext & Hpad & Hwfe & Hre & Hce & Hcell).
  destruct (slice2_window ext (row0 ck) (height ck + 2) (col0 ck) (width ck + 2) Hwfe)
    as (block & Hslice & Hwfb & Hrb & Hcb & Hcellb); [lia | lia |].
  exists block. unfold overlap. rewrite Hpad. cbn [bind].
  rewrite !Nat.add_assoc in Hslice. rewrite Hslice.
  split; [reflexivity |]. split; [exact Hwfb |]. split; [exact Hrb |]. split; [exact Hcb |].
  intros y x Hy Hx. rewrite Hcellb by assumption. apply Hcell; lia.
Qed.

End PadFacts.

(* ===================================================================== *)
(** ** The sequential evaluator: border, undersized grids, scenarios *)
(* ===================================================================== *)

Import Scenario.

Section CpuClaims.

Open Scope Z_scope.

Lemma fill_full (rows cols : nat) (v w : scalar) : fill (full rows cols v) w = full rows cols w.
Proof.
  unfold fill, full. cbn [nrows ncols cells]. f_equal.
  change (map (map (fun _ : scalar => w)) ?l)
    with ((fun row : list scalar => (fun _ : scalar => w) <$> row) <$> l).
  rewrite fmap_replicate. f_equal. apply fmap_replicate.
Qed.


Lemma slope_north_wf : wf slope_north.
Proof. split; [reflexivity | repeat constructor]. Defined.


(** C9.  For every input array with fewer than 3 rows or fewer than 3
    columns [_cpu] raises nothing and returns the array of the same shape
    whose every cell is NaN: no cell is written. *)
Theorem cpu_undersized_all_missing (data : ndarray) :
  (nrows data < 3)%nat \/ (ncols data < 3)%nat ->
  _cpu data = Ok (full (nrows data) (ncols data) NaN) /\
  shape (full (nrows data) (ncols data) NaN) = shape data /\
  (forall y x, interior data y x = false) /\
  (forall y x, in_grid data y x ->
     get (full (nrows data) (ncols data) NaN) y x = Ok NaN).
Proof.
  intros Hsmall.
  split; [| split; [reflexivity | split]].
  - unfold _cpu, zeros_like. rewrite fill_full. unfold _cpu_loops, shape.
    apply for_skip. intros y out Hy. unfold _cpu_row.
    apply elem_of_range in Hy.
    assert (Hcols : (ncols data < 3)%nat) by lia.
    unfold range. rewrite seqZ_nil by lia. reflexivity.
  - intros y x. destruct (interior data y x) eqn:Hint; [| reflexivity].
    apply interior_spec in Hint. lia.
  - intros y x Hin. rewrite <- (fill_full _ _ (Fin 0) NaN).
    apply get_fill; [apply full_wf | exact Hin].
Qed.

Lemma cpu_undersized_all_missing_witness :
  ((nrows two_rows < 3)%nat \/ (ncols two_rows < 3)%nat) /\
  _cpu two_rows = Ok (full 2 3 NaN).
Proof.
  assert (H : (nrows two_rows < 3)%nat \/ (ncols two_rows < 3)%nat) by (left; cbn; lia).
  split; [exact H |].
  exact (proj1 (cpu_undersized_all_missing two_rows H)).
Defined.

End CpuClaims.

(* ===================================================================== *)
(** ** The kernel: flat cells, the north slope, quarter turns, the clamp *)
(* ===================================================================== *)

Section KernelClaims.

Open Scope R_scope.







(** C7.  On the grid 30 30 30 / 20 20 20 / 10 10 10 [_cpu] writes 180 for
    the centre cell (exactly 180 in exact arithmetic). *)
Theorem slope_north_faces_south :
  exists out, _cpu slope_north = Ok out /\ get out 1 1 = Ok (Fin 180).
Proof.
  destruct (_cpu_spec slope_north slope_north_wf) as (out & Hrun & _ & _ & Hget).
  exists out. split; [exact Hrun |].
  rewrite (Hget 1%Z 1%Z) by (unfold in_grid; cbn; lia).
  replace (interior slope_north 1 1) with true
    by (symmetry; apply interior_spec; cbn; lia).
  change (_cpu_cell slope_north 1 1)
    with (Ok (_cpu_kernel (Fin 30) (Fin 30) (Fin 30) (Fin 20) (Fin 20) (Fin 10) (Fin 10) (Fin 10))).
  f_equal. rewrite _cpu_kernel_real.
  assert (Hx : dz_dx_real 30 30 20 20 10 10 = 0) by (unfold dz_dx_real; lra).
  assert (Hy : dz_dy_real 30 30 30 10 10 10 = -10) by (unfold dz_dy_real; lra).
  rewrite Hx, Hy. rewrite bool_decide_true by reflexivity.
  rewrite bool_decide_false by lra. cbn [andb]. f_equal.
  unfold degrees. rewrite Ropp_0, atan2_down by lra.
  destruct degrees_scale as [Hk Hpk].
  replace (- (PI / 2) * (180 / PI)) with (-90) by lra.
  unfold bearing. rewrite bool_decide_true by lra. lra.
Qed.

Lemma dz_rotate_cw (a b c d f g h i : R) :
  dz_dx_real g a h b i c = - dz_dy_real a b c g h i /\
  dz_dy_real g d a i f c = dz_dx_real a c d f g i.
Proof. unfold dz_dx_real, dz_dy_real. split; lra. Qed.

Lemma dz_rotate_ccw (a b c d f g h i : R) :
  dz_dx_real c i b h a g = dz_dy_real a b c g h i /\
  dz_dy_real c f i a d g = - dz_dx_real a c d f g i.
Proof. unfold dz_dx_real, dz_dy_real. split; lra. Qed.

(** C8.  For every neighbourhood of real numbers that is not flat, a quarter
    turn of the neighbourhood moves the bearing the kernel reports by
    exactly 90 degrees modulo 360: plus 90 clockwise, minus 90
    anticlockwise, with all three bearings in [0, 360). *)
Theorem quarter_turn_moves_bearing_by_90 (a b c d f g h i : R) :
  ~ (dz_dx_real a c d f g i = 0 /\ dz_dy_real a b c g h i = 0) ->
  exists t t_cw t_ccw : R,
    _cpu_kernel (Fin a) (Fin b) (Fin c) (Fin d) (Fin f) (Fin g) (Fin h) (Fin i) = Fin t /\
    rotate_cw _cpu_kernel (Fin a) (Fin b) (Fin c) (Fin d) (Fin f) (Fin g) (Fin h) (Fin i)
      = Fin t_cw /\
    rotate_ccw _cpu_kernel (Fin a) (Fin b) (Fin c) (Fin d) (Fin f) (Fin g) (Fin h) (Fin i)
      = Fin t_ccw /\
    0 <= t < 360 /\ 0 <= t_cw < 360 /\ 0 <= t_ccw < 360 /\
    (t_cw = t + 90 \/ t_cw = t + 90 - 360) /\
    (t_ccw = t - 90 \/ t_ccw = t - 90 + 360).
Proof.
  intros Hnf. unfold rotate_cw, rotate_ccw. rewrite !_cpu_kernel_real.
  destruct (dz_rotate_cw a b c d f g h i) as [-> ->].
  destruct (dz_rotate_ccw a b c d f g h i) as [-> ->].
  set (X := dz_dx_real a c d f g i) in *. set (Y := dz_dy_real a b c g h i) in *.
  assert (Hflat : forall p q : R, ~ (p = 0 /\ q = 0) ->
            bool_decide (p = 0) && bool_decide (q = 0) = false).
  { intros p q Hpq. apply andb_false_iff.
    destruct (decide (p = 0)) as [Hp | Hp].
    - right. apply bool_decide_eq_false. tauto.
    - left. apply bool_decide_eq_false. exact Hp. }
  rewrite (Hflat X Y) by exact Hnf.
  rewrite (Hflat (- Y) X) by (intros [? ?]; apply Hnf; split; lra).
  rewrite (Hflat Y (- X)) by (intros [? ?]; apply Hnf; split; lra).
  do 3 eexists. split; [reflexivity |]. split; [reflexivity |]. split; [reflexivity |].
  rewrite (Ropp_involutive Y).
  split; [apply bearing_range, degrees_range |].
  split; [apply bearing_range, degrees_range |].
  split; [apply bearing_range, degrees_range |].
  split.
  - (* clockwise: the direction (-X, Y) becomes (Y, X) *)
    pose proof (bearing_quarter_turn Y (- X)) as Hq.
    rewrite (Ropp_involutive X) in Hq.
    apply Hq. intros [? ?]. apply Hnf. split; lra.
  - (* anticlockwise: the direction (- Y, - X) turned clockwise is (-X, Y) *)
    pose proof (bearing_quarter_turn (- X) (- Y)) as Hq.
    rewrite (Ropp_involutive Y) in Hq.
    assert (Hnz : ~ (- X = 0 /\ - Y = 0)) by (intros [? ?]; apply Hnf; split; lra).
    specialize (Hq Hnz). lra.
Qed.

Lemma quarter_turn_moves_bearing_by_90_witness :
  ~ (dz_dx_real 30 30 20 20 10 10 = 0 /\ dz_dy_real 30 30 30 10 10 10 = 0) /\
  exists t t_cw : R,
    _cpu_kernel (Fin 30) (Fin 30) (Fin 30) (Fin 20) (Fin 20) (Fin 10) (Fin 10) (Fin 10) = Fin t /\
    _cpu_kernel (Fin 10) (Fin 20) (Fin 30) (Fin 10) (Fin 30) (Fin 10) (Fin 20) (Fin 30) = Fin t_cw /\
    (t_cw = t + 90 \/ t_cw = t + 90 - 360).
Proof.
  assert (Hnf : ~ (dz_dx_real 30 30 20 20 10 10 = 0 /\ dz_dy_real 30 30 30 10 10 10 = 0))
    by (unfold dz_dy_real; intros [_ H]; lra).
  split; [exact Hnf |].
  destruct (quarter_turn_moves_bearing_by_90 30 30 30 20 20 10 10 10 Hnf)
    as (t & t_cw & t_ccw & Ht & Hcw & _ & _ & _ & _ & Hrel & _).
  exists t, t_cw. split; [exact Ht |]. split; [exact Hcw | exact Hrel].
Defined.

End KernelClaims.

Section ClampClaims.

Open Scope R_scope.

(** The clamp of the device function: a bearing above 359.999 becomes 0,
    any other value is returned as it is, so nothing above 359.999 is ever
    returned. *)
Lemma _gpu_clamp (arr : ndarray) (aspect : scalar) :
  _gpu_bearing arr = Ok aspect ->
  ((aspect >? Fin 359.999)%sc = true -> _gpu arr = Ok (Fin 0)) /\
  ((aspect >? Fin 359.999)%sc = false -> _gpu arr = Ok aspect) /\
  (forall u, _gpu arr = Ok u -> (u >? Fin 359.999)%sc = false).
Proof.
  intros Hb. unfold _gpu. rewrite Hb. cbn [bind].
  destruct (aspect >? Fin 359.999)%sc eqn:Hclamp.
  - split; [reflexivity |]. split; [discriminate |].
    intros u [= <-]. cbn. apply bool_decide_eq_false. lra.
  - split; [discriminate |]. split; [reflexivity |].
    intros u [= <-]. exact Hclamp.
Qed.

(** The angle of the steep slope of [near_north], in degrees. *)
Lemma near_north_degrees : 90 < degrees 10000 (- (1 / 8)) < 90.00075.
Proof.
  unfold degrees. rewrite atan2_left_up by lra.
  replace (10000 / - (1 / 8)) with (- / (1 / 80000)) by field.
  rewrite atan_opp, atan_inv by lra.
  destruct degrees_scale as [Hk Hpk].
  pose proof PI2_3_2 as Hpi.
  pose proof (atan_pos (1 / 80000)) as Hpos.
  pose proof (atan_lt_id (1 / 80000)) as Hlt.
  set (k := 180 / PI) in *. set (e := atan (1 / 80000)) in *.
  assert (Hk60 : k < 60) by nra.
  assert (He : 0 < e < 1 / 80000) by lra.
  assert (Hek : 0 < e * k < 0.00075) by nra.
  nra.
Qed.

(** C1, on the code.  The device function [_gpu] applies the clamp: whenever
    the bearing it has computed exceeds 359.999 it returns 0.  [_cpu] has no
    clamp: on [near_north] the bearing of the centre cell exceeds 359.999
    and [_cpu] writes that bearing, not 0. *)
Theorem cpu_writes_unclamped_bearing :
  (forall arr aspect,
     _gpu_bearing arr = Ok aspect -> (aspect >? Fin 359.999)%sc = true ->
     _gpu arr = Ok (Fin 0)) /\
  exists out v,
    _cpu near_north = Ok out /\ get out 1 1 = Ok (Fin v) /\
    359.999 < v < 360 /\ Fin v <> Fin 0.
Proof.
  split; [intros arr aspect Hb; exact (proj1 (_gpu_clamp arr aspect Hb)) |].
  assert (Hwf : wf near_north) by (split; [reflexivity | repeat constructor]).
  destruct (_cpu_spec near_north Hwf) as (out & Hrun & _ & _ & Hget).
  exists out. eexists. split; [exact Hrun |].
  rewrite (Hget 1%Z 1%Z) by (unfold in_grid; cbn; lia).
  replace (interior near_north 1 1) with true
    by (symmetry; apply interior_spec; cbn; lia).
  change (_cpu_cell near_north 1 1)
    with (Ok (_cpu_kernel (Fin 0) (Fin 0) (Fin 0) (Fin 0) (Fin 0.5) (Fin 0) (Fin 40000) (Fin 0))).
  rewrite _cpu_kernel_real.
  assert (Hx : dz_dx_real 0 0 0 0.5 0 0 = 1 / 8) by (unfold dz_dx_real; lra).
  assert (Hy : dz_dy_real 0 0 0 0 40000 0 = 10000) by (unfold dz_dy_real; lra).
  rewrite Hx, Hy. rewrite (bool_decide_false (1 / 8 = 0)) by lra. cbn [andb].
  split; [reflexivity |].
  pose proof near_north_degrees as Hd.
  assert (Hb : 359.999 < bearing (degrees 10000 (- (1 / 8))) < 360).
  { unfold bearing. rewrite bool_decide_false by lra. rewrite bool_decide_true by lra. lra. }
  split; [exact Hb |]. intros [= H0]. lra.
Qed.

End ClampClaims.

(* ===================================================================== *)
(** ** The device launcher and the dispatch adapters *)
(* ===================================================================== *)

Section LauncherClaims.

Open Scope Z_scope.

Lemma _run_gpu_guard_spec (out : ndarray) (i j : Z) :
  _run_gpu_guard out i j = true <->
  2 <= i <= Z.of_nat (nrows out) - 3 /\ 2 <= j <= Z.of_nat (ncols out) - 3.
Proof.
  unfold _run_gpu_guard, shape. cbn [fst snd].
  rewrite !andb_true_iff, !Z.geb_le, !Z.ltb_lt. lia.
Qed.

(** C4, as the code has it.  The execution unit (i, j) reaches the write of
    line 111 if and only if 2 <= i <= rows-3 and 2 <= j <= cols-3: the guard
    leaves out the two outer rings of the padded tile, and a unit it turns
    away leaves the output as it was.  For the padded tile of [_run_cupy],
    two rows and two columns larger than the tile, these are the cells that
    the loops of [_cpu] visit on the tile itself, shifted by the padding. *)
Theorem gpu_guard_leaves_out_two_rings (arr out : ndarray) (i j : Z) :
  (_run_gpu_guard out i j = true <->
   2 <= i <= Z.of_nat (nrows out) - 3 /\ 2 <= j <= Z.of_nat (ncols out) - 3) /\
  (_run_gpu_guard out i j = false -> _run_gpu arr out i j = Ok out) /\
  (forall tile : ndarray,
     nrows out = (nrows tile + 2)%nat -> ncols out = (ncols tile + 2)%nat ->
     _run_gpu_guard out i j = interior tile (i - 1) (j - 1)).
Proof.
  split; [apply _run_gpu_guard_spec |]. split.
  - intros Hg. unfold _run_gpu. cbv zeta. rewrite Hg. reflexivity.
  - intros tile Hr Hc.
    apply eq_true_iff_eq. rewrite _run_gpu_guard_spec, interior_spec. lia.
Qed.

Lemma gpu_guard_leaves_out_two_rings_witness :
  _run_gpu_guard tile44 1 1 = false /\
  nrows (full 5 5 NaN) = (nrows slope_north + 2)%nat /\
  ncols (full 5 5 NaN) = (ncols slope_north + 2)%nat /\
  _run_gpu tile44 tile44 1 1 = Ok tile44 /\
  _run_gpu_guard (full 5 5 NaN) 2 2 = interior slope_north 1 1.
Proof.
  split; [reflexivity |]. split; [reflexivity |]. split; [reflexivity |]. split.
  - exact (proj1 (proj2 (gpu_guard_leaves_out_two_rings tile44 tile44 1 1)) eq_refl).
  - exact (proj2 (proj2 (gpu_guard_leaves_out_two_rings slope_north (full 5 5 NaN) 2 2))
             slope_north eq_refl eq_refl).
Defined.

(** C4, as stated, fails: on a padded tile of shape (4, 4) the cell (1, 1)
    lies inside the outer ring, 1 <= 1 <= 4-2, and the loops of [_cpu] visit
    it; the unit (1, 1) of the launcher is turned away by the guard and
    writes nothing. *)
Lemma gpu_guard_turns_away_first_inner_ring :
  (1 <= 1 <= fst (shape tile44) - 2 /\ 1 <= 1 <= snd (shape tile44) - 2) /\
  interior tile44 1 1 = true /\
  _run_gpu_guard tile44 1 1 = false /\
  _run_gpu tile44 tile44 1 1 = Ok tile44.
Proof.
  split; [cbn; lia |]. split; [apply interior_spec; cbn; lia |].
  split; reflexivity.
Qed.

End LauncherClaims.

Section AdapterClaims.

Open Scope nat_scope.

(** C3, as the code has it.  For every chunk the dask/numpy path builds the
    block with its 1-cell halo on the boundary mode NaN (boundary=np.nan):
    a halo cell on the boundary of the array is NaN, any other cell of the
    block is the cell of the array at its place; and the result returned
    for the chunk has exactly the chunk's shape.  The cupy path pads the
    tile in mode "reflect", every halo cell being the mirrored cell of the
    tile. *)
Theorem halo_of_each_path (data : ndarray) :
  wf data ->
  (forall ck, chunk_inside ck data ->
   exists block out,
     overlap (Constant NaN) data ck = Ok block /\
     _run_dask_numpy data ck
       = (do computed <- _cpu block; Ok (slice2 computed 1 (-1) 1 (-1))) /\
     (forall y x, y < height ck + 2 -> x < width ck + 2 ->
        cell block y x =
        if halo (nrows data) (ncols data) (row0 ck + y) (col0 ck + x) then Some NaN
        else cell data (row0 ck + y - 1) (col0 ck + x - 1)) /\
     _run_dask_numpy data ck = Ok out /\ wf out /\
     nrows out = height ck /\ ncols out = width ck) /\
  (forall cuda_args, 0 < nrows data -> 0 < ncols data ->
     exists ext,
       np_pad data Reflect = Ok ext /\
       _run_cupy cuda_args data = _run_cupy_launch cuda_args data ext 1 1 /\
       nrows ext = nrows data + 2 /\ ncols ext = ncols data + 2 /\
       forall y x, y < nrows data + 2 -> x < ncols data + 2 ->
         cell ext y x = cell data (mirror (nrows data) y) (mirror (ncols data) x)).
Proof.
  intros Hwf. split.
  - intros ck Hck.
    destruct (overlap_constant_spec data ck NaN Hwf Hck)
      as (block & Hov & Hwfb & Hr & Hc & Hcell).
    destruct (_cpu_spec block Hwfb) as (computed & Hrun & Hwfc & [Hcr Hcc] & _).
    exists block, (slice2 computed 1 (-1) 1 (-1)).
    assert (Hdask : _run_dask_numpy data ck
                    = (do computed <- _cpu block; Ok (slice2 computed 1 (-1) 1 (-1)))).
    { unfold _run_dask_numpy, map_overlap. cbv zeta. rewrite Hov. reflexivity. }
    split; [exact Hov |]. split; [exact Hdask |]. split; [exact Hcell |].
    split; [rewrite Hdask, Hrun; reflexivity |].
    split; [apply trim_wf; exact Hwfc |].
    destruct (trim_shape computed) as [Htr Htc]. lia.
  - intros cuda_args Hr Hc.
    destruct (np_pad_reflect_spec data Hwf Hr Hc) as (ext & Hpad & _ & Hre & Hce & Hcell).
    exists ext. split; [exact Hpad |]. split.
    + unfold _run_cupy. cbv zeta. rewrite Hpad. reflexivity.
    + split; [exact Hre |]. split; [exact Hce | exact Hcell].
Qed.

Lemma halo_of_each_path_witness :
  wf slope_north /\ chunk_inside (mk_chunk 0 3 0 2) slope_north /\
  exists out, _run_dask_numpy slope_north (mk_chunk 0 3 0 2) = Ok out /\
              nrows out = 3 /\ ncols out = 2.
Proof.
  assert (Hck : chunk_inside (mk_chunk 0 3 0 2) slope_north) by (split; cbn; lia).
  split; [exact slope_north_wf |]. split; [exact Hck |].
  destruct (proj1 (halo_of_each_path slope_north slope_north_wf) _ Hck)
    as (block & out & _ & _ & _ & Hrun & _ & Hr & Hc).
  exists out. split; [exact Hrun |]. split; [exact Hr | exact Hc].
Defined.

(** C3, as stated, fails on the dask/numpy path: for the array
    [slope_north] held in one chunk, the halo cells (0, 0) and (0, 1) of the
    block are NaN, where mode "reflect" puts the mirrored cell of the
    array, 20. *)
Lemma dask_halo_is_nan_fill :
  exists block ext',
    overlap (Constant NaN) slope_north (whole slope_north) = Ok block /\
    _run_dask_numpy slope_north (whole slope_north)
      = (do computed <- _cpu block; Ok (slice2 computed 1 (-1) 1 (-1))) /\
    np_pad slope_north Reflect = Ok ext' /\
    cell block 0 0 = Some NaN /\ cell ext' 0 0 = Some (Fin 20) /\
    cell block 0 1 = Some NaN /\ cell ext' 0 1 = Some (Fin 20) /\
    block <> ext'.
Proof.
  do 2 eexists. split; [reflexivity |]. split; [reflexivity |].
  split; [reflexivity |]. split; [reflexivity |]. split; [reflexivity |].
  split; [reflexivity |]. split; [reflexivity |].
  intros H. apply (f_equal (fun a => cell a 0 0)) in H. discriminate H.
Qed.

Lemma load_unbound (locals : namespace) (name : string) :
  lookup name locals = None -> lookup name module_globals = None ->
  load locals name = Raise (NameError name).
Proof. intros Hl Hg. unfold load. rewrite Hl, Hg. reflexivity. Qed.

(** Past the padding, [_run_cupy] stops at the first unbound name or
    earlier. *)
Lemma _run_cupy_launch_raises (cuda_args : Z * Z -> result ((Z * Z) * (Z * Z)))
    (data _data : ndarray) (pad_rows pad_cols : Z) :
  _run_cupy_launch cuda_args data _data pad_rows pad_cols =
  match cuda_args (shape _data) with
  | Ok _ => Raise (NameError "cellsize_x_arr")
  | Raise e => Raise e
  end.
Proof.
  unfold _run_cupy_launch.
  destruct (cuda_args (shape _data)) as [[griddim blockdim] | e]; reflexivity.
Qed.

(** On an array with an empty axis the padding itself raises. *)
Lemma _run_cupy_empty_axis (cuda_args : Z * Z -> result ((Z * Z) * (Z * Z)))
    (data : ndarray) :
  nrows data = 0 \/ ncols data = 0 -> _run_cupy cuda_args data = Raise ValueError.
Proof.
  intros Hempty. unfold _run_cupy. cbv zeta.
  rewrite (np_pad_reflect_empty data Hempty). reflexivity.
Qed.



End AdapterClaims.

(* ===================================================================== *)
(** ** The dask/numpy path computes, chunk by chunk, what [_cpu] computes *)
(* ===================================================================== *)

Section DaskAgreement.

Open Scope Z_scope.

Lemma kernel_of_nan_derivative (dz_dx dz_dy : scalar) :
  dz_dx = NaN \/ dz_dy = NaN ->
  match _cpu_branch dz_dx dz_dy with
  | NoCall => Fin (-1)
  | Arctan2 y x => compass (arctan2 y x * RADIAN)
  end = NaN.
Proof.
  unfold _cpu_branch.
  intros [-> | ->].
  - destruct dz_dy; reflexivity.
  - destruct dz_dx as [| r]; [reflexivity |].
    cbn [feqb]. rewrite andb_false_r. reflexivity.
Qed.

(** NaN among the neighbours propagates to the value written. *)
Lemma _cpu_kernel_nan (a b c d f g h i : scalar) :
  a = NaN \/ b = NaN \/ c = NaN \/ d = NaN \/ f = NaN \/ g = NaN \/ h = NaN \/ i = NaN ->
  _cpu_kernel a b c d f g h i = NaN.
Proof.
  intros Hnan. unfold _cpu_kernel. cbv zeta. apply kernel_of_nan_derivative.
  unfold horn_dz_dx, horn_dz_dy.
  destruct Hnan as [-> | [-> | [-> | [-> | [-> | [-> | [-> | ->]]]]]]].
  - left. destruct c, d, f, g, i; reflexivity.
  - right. destruct a, c, g, h, i; reflexivity.
  - left. destruct a, d, f, g, i; reflexivity.
  - left. destruct a, c, f, g, i; reflexivity.
  - left. destruct a, c, d, g, i; reflexivity.
  - left. destruct a, c, d, f, i; reflexivity.
  - right. destruct a, b, c, g, i; reflexivity.
  - left. destruct a, c, d, f, g; reflexivity.
Qed.

(** Reading the block of a chunk with its NaN halo. *)
Lemma get_overlap_constant (data block : ndarray) (ck : chunk) (v : scalar) (y x : Z) :
  wf data -> chunk_inside ck data -> overlap (Constant v) data ck = Ok block ->
  0 <= y < Z.of_nat (height ck) + 2 -> 0 <= x < Z.of_nat (width ck) + 2 ->
  get block y x =
  if (Z.of_nat (row0 ck) + y =? 0) || (Z.of_nat (row0 ck) + y =? Z.of_nat (nrows data) + 1)
     || (Z.of_nat (col0 ck) + x =? 0) || (Z.of_nat (col0 ck) + x =? Z.of_nat (ncols data) + 1)
  then Ok v
  else get data (Z.of_nat (row0 ck) + y - 1) (Z.of_nat (col0 ck) + x - 1).
Proof.
  intros Hwf Hck Hov Hy Hx. pose proof Hck as [Hckr Hckc].
  destruct (overlap_constant_spec data ck v Hwf Hck) as (block' & Hov' & _ & Hr & Hc & Hcell).
  rewrite Hov in Hov'. injection Hov' as <-.
  rewrite get_cell by (unfold in_grid; rewrite Hr, Hc; lia).
  rewrite Hcell by lia. unfold halo.
  set (Y := Z.of_nat (row0 ck) + y). set (X := Z.of_nat (col0 ck) + x).
  replace (row0 ck + Z.to_nat y)%nat with (Z.to_nat Y) by (unfold Y; lia).
  replace (col0 ck + Z.to_nat x)%nat with (Z.to_nat X) by (unfold X; lia).
  assert (HY : 0 <= Y) by (unfold Y; lia). assert (HX : 0 <= X) by (unfold X; lia).
  replace (Z.to_nat Y =? 0)%nat with (Y =? 0)
    by (destruct (Z.eqb_spec Y 0), (Nat.eqb_spec (Z.to_nat Y) 0); reflexivity || lia).
  replace (Z.to_nat Y =? nrows data + 1)%nat with (Y =? Z.of_nat (nrows data) + 1)
    by (destruct (Z.eqb_spec Y (Z.of_nat (nrows data) + 1)),
                 (Nat.eqb_spec (Z.to_nat Y) (nrows data + 1)); reflexivity || lia).
  replace (Z.to_nat X =? 0)%nat with (X =? 0)
    by (destruct (Z.eqb_spec X 0), (Nat.eqb_spec (Z.to_nat X) 0); reflexivity || lia).
  replace (Z.to_nat X =? ncols data + 1)%nat with (X =? Z.of_nat (ncols data) + 1)
    by (destruct (Z.eqb_spec X (Z.of_nat (ncols data) + 1)),
                 (Nat.eqb_spec (Z.to_nat X) (ncols data + 1)); reflexivity || lia).
  destruct ((Y =? 0) || (Y =? Z.of_nat (nrows data) + 1) || (X =? 0)
            || (X =? Z.of_nat (ncols data) + 1)) eqn:Hhalo; [reflexivity |].
  rewrite !orb_false_iff, !Z.eqb_neq in Hhalo.
  rewrite (get_cell data (Y - 1) (X - 1)) by (unfold in_grid, Y, X in *; lia).
  replace (Z.to_nat (Y - 1)) with (Z.to_nat Y - 1)%nat by lia.
  replace (Z.to_nat (X - 1)) with (Z.to_nat X - 1)%nat by lia.
  reflexivity.
Qed.

(** Reading the trimmed array [a[1:-1, 1:-1]]. *)
Lemma get_trim (a : ndarray) (y x : Z) :
  wf a -> 0 <= y < Z.of_nat (nrows a) - 2 -> 0 <= x < Z.of_nat (ncols a) - 2 ->
  get (slice2 a 1 (-1) 1 (-1)) y x = get a (y + 1) (x + 1).
Proof.
  intros [Hlen Hrows] Hy Hx. destruct (trim_shape a) as [Hr Hc].
  rewrite get_cell by (unfold in_grid; rewrite Hr, Hc; lia).
  rewrite (get_cell a (y + 1) (x + 1)) by (unfold in_grid; lia).
  unfold cell, slice2, sublist. cbn [cells].
  assert (Hrl : slice_bound (nrows a) 1 = 1%nat) by (unfold slice_bound; cbn; lia).
  assert (Hrh : slice_bound (nrows a) (-1) = (nrows a - 1)%nat) by (unfold slice_bound; cbn; lia).
  assert (Hcl : slice_bound (ncols a) 1 = 1%nat) by (unfold slice_bound; cbn; lia).
  assert (Hch : slice_bound (ncols a) (-1) = (ncols a - 1)%nat) by (unfold slice_bound; cbn; lia).
  rewrite Hrl, Hrh, Hcl, Hch.
  change (map ?g ?l) with (g <$> l).
  rewrite list_lookup_fmap, lookup_take_lt, lookup_drop by lia.
  replace (1 + Z.to_nat y)%nat with (Z.to_nat (y + 1)) by lia.
  destruct (cells a !! Z.to_nat (y + 1)) as [row |]; cbn; [| reflexivity].
  rewrite lookup_take_lt, lookup_drop by lia.
  replace (1 + Z.to_nat x)%nat with (Z.to_nat (x + 1)) by lia.
  reflexivity.
Qed.

(** Tiles compose: for every chunk, the block [_run_dask_numpy] returns is,
    cell for cell, the chunk's part of what [_run_numpy] returns for the
    whole array.  The NaN halo makes the cells at the border of the array
    NaN, like the cells [_cpu] leaves unwritten. *)
Lemma _run_dask_numpy_agrees (data : ndarray) (ck : chunk) :
  wf data -> chunk_inside ck data ->
  exists out out',
    _run_dask_numpy data ck = Ok out /\ _run_numpy data = Ok out' /\
    forall y x, 0 <= y < Z.of_nat (height ck) -> 0 <= x < Z.of_nat (width ck) ->
      get out y x = get out' (Z.of_nat (row0 ck) + y) (Z.of_nat (col0 ck) + x).
Proof.
  intros Hwf Hck. pose proof Hck as [Hckr Hckc].
  destruct (_cpu_spec data Hwf) as (out' & Hrun' & _ & [Hr' Hc'] & Hget').
  destruct (overlap_constant_spec data ck NaN Hwf Hck)
    as (block & Hov & Hwfb & Hrb & Hcb & _).
  destruct (_cpu_spec block Hwfb) as (computed & Hrun & Hwfc & [Hcr Hcc] & Hget).
  exists (slice2 computed 1 (-1) 1 (-1)), out'.
  split; [| split; [exact Hrun' |]].
  - unfold _run_dask_numpy, map_overlap. cbv zeta. rewrite Hov. cbn [bind].
    rewrite Hrun. reflexivity.
  - intros y x Hy Hx.
    set (Y := Z.of_nat (row0 ck) + y). set (X := Z.of_nat (col0 ck) + x).
    assert (HY : 0 <= Y < Z.of_nat (nrows data)) by (unfold Y; lia).
    assert (HX : 0 <= X < Z.of_nat (ncols data)) by (unfold X; lia).
    rewrite get_trim by (exact Hwfc || lia).
    rewrite Hget by (unfold in_grid; lia).
    rewrite Hget' by (split; assumption).
    assert (Hint : interior block (y + 1) (x + 1) = true) by (apply interior_spec; lia).
    rewrite Hint.
    assert (Hnb : forall dy dx, -1 <= dy <= 1 -> -1 <= dx <= 1 ->
              get block (y + 1 + dy) (x + 1 + dx) =
              if (Y + dy =? -1) || (Y + dy =? Z.of_nat (nrows data))
                 || (X + dx =? -1) || (X + dx =? Z.of_nat (ncols data))
              then Ok NaN else get data (Y + dy) (X + dx)).
    { intros dy dx Hdy Hdx.
      rewrite (get_overlap_constant data block ck NaN _ _ Hwf Hck Hov) by lia.
      replace (Z.of_nat (row0 ck) + (y + 1 + dy) - 1) with (Y + dy) by (unfold Y; lia).
      replace (Z.of_nat (col0 ck) + (x + 1 + dx) - 1) with (X + dx) by (unfold X; lia).
      replace (Z.of_nat (row0 ck) + (y + 1 + dy) =? 0) with (Y + dy =? -1)
        by (unfold Y; destruct (Z.eqb_spec (Z.of_nat (row0 ck) + y + dy) (-1)),
              (Z.eqb_spec (Z.of_nat (row0 ck) + (y + 1 + dy)) 0); reflexivity || lia).
      replace (Z.of_nat (row0 ck) + (y + 1 + dy) =? Z.of_nat (nrows data) + 1)
        with (Y + dy =? Z.of_nat (nrows data))
        by (unfold Y; destruct (Z.eqb_spec (Z.of_nat (row0 ck) + y + dy) (Z.of_nat (nrows data))),
              (Z.eqb_spec (Z.of_nat (row0 ck) + (y + 1 + dy)) (Z.of_nat (nrows data) + 1));
            reflexivity || lia).
      replace (Z.of_nat (col0 ck) + (x + 1 + dx) =? 0) with (X + dx =? -1)
        by (unfold X; destruct (Z.eqb_spec (Z.of_nat (col0 ck) + x + dx) (-1)),
              (Z.eqb_spec (Z.of_nat (col0 ck) + (x + 1 + dx)) 0); reflexivity || lia).
      replace (Z.of_nat (col0 ck) + (x + 1 + dx) =? Z.of_nat (ncols data) + 1)
        with (X + dx =? Z.of_nat (ncols data))
        by (unfold X; destruct (Z.eqb_spec (Z.of_nat (col0 ck) + x + dx) (Z.of_nat (ncols data))),
              (Z.eqb_spec (Z.of_nat (col0 ck) + (x + 1 + dx)) (Z.of_nat (ncols data) + 1));
            reflexivity || lia).
      reflexivity. }
    destruct (_cpu_cell_interior block (y + 1) (x + 1) Hwfb Hint)
      as (a & b & c & d & f & g & h & i & Ha & Hb & Hc & Hd & Hf & Hg & Hh & Hi & Hcell).
    rewrite Hcell.
    pose proof (Hnb (-1) (-1)) as Ea. pose proof (Hnb (-1) 0) as Eb.
    pose proof (Hnb (-1) 1) as Ec. pose proof (Hnb 0 (-1)) as Ed.
    pose proof (Hnb 0 1) as Ef. pose proof (Hnb 1 (-1)) as Eg.
    pose proof (Hnb 1 0) as Eh. pose proof (Hnb 1 1) as Ei.
    rewrite ?Z.add_0_r in *.
    change (y + 1 + -1) with (y + 1 - 1) in *. change (x + 1 + -1) with (x + 1 - 1) in *.
    change (Y + -1) with (Y - 1) in *. change (X + -1) with (X - 1) in *.
    rewrite Ha in Ea. rewrite Hb in Eb. rewrite Hc in Ec. rewrite Hd in Ed.
    rewrite Hf in Ef. rewrite Hg in Eg. rewrite Hh in Eh. rewrite Hi in Ei.
    specialize (Ea ltac:(lia) ltac:(lia)). specialize (Eb ltac:(lia) ltac:(lia)).
    specialize (Ec ltac:(lia) ltac:(lia)). specialize (Ed ltac:(lia) ltac:(lia)).
    specialize (Ef ltac:(lia) ltac:(lia)). specialize (Eg ltac:(lia) ltac:(lia)).
    specialize (Eh ltac:(lia) ltac:(lia)). specialize (Ei ltac:(lia) ltac:(lia)).
    destruct (interior data Y X) eqn:Hdata.
    + (* no neighbour lies in the halo of the array *)
      apply interior_spec in Hdata.
      assert (Hno : forall p q, 0 <= p < Z.of_nat (nrows data) ->
                0 <= q < Z.of_nat (ncols data) ->
                (p =? -1) || (p =? Z.of_nat (nrows data))
                || (q =? -1) || (q =? Z.of_nat (ncols data)) = false).
      { intros p q Hp Hq. rewrite !orb_false_iff, !Z.eqb_neq. lia. }
      rewrite Hno in Ea, Eb, Ec, Ed, Ef, Eg, Eh, Ei by lia.
      unfold _cpu_cell.
      rewrite <- Ea, <- Eb, <- Ec, <- Ed, <- Ef, <- Eg, <- Eh, <- Ei. reflexivity.
    + (* a neighbour to the north, south, west or east lies in that halo *)
      f_equal. apply _cpu_kernel_nan.
      assert (Hedge : Y = 0 \/ Y = Z.of_nat (nrows data) - 1 \/
                      X = 0 \/ X = Z.of_nat (ncols data) - 1).
      { assert (Hn : ~ (1 <= Y <= Z.of_nat (nrows data) - 2 /\
                        1 <= X <= Z.of_nat (ncols data) - 2)).
        { intros Hi'. apply interior_spec in Hi'. congruence. }
        lia. }
      destruct Hedge as [Hy0 | [Hy1 | [Hx0 | Hx1]]].
      * right; left.
        replace (Y - 1 =? -1) with true in Eb by (symmetry; apply Z.eqb_eq; lia).
        cbn [orb] in Eb. congruence.
      * do 6 right; left.
        replace (Y + 1 =? Z.of_nat (nrows data)) with true in Eh
          by (symmetry; apply Z.eqb_eq; lia).
        rewrite orb_true_r in Eh. cbn [orb] in Eh. congruence.
      * do 3 right; left.
        replace (X - 1 =? -1) with true in Ed by (symmetry; apply Z.eqb_eq; lia).
        rewrite orb_true_r in Ed. cbn [orb] in Ed. congruence.
      * do 4 right; left.
        replace (X + 1 =? Z.of_nat (ncols data)) with true in Ef
          by (symmetry; apply Z.eqb_eq; lia).
        rewrite orb_true_r in Ef. congruence.
Qed.

End DaskAgreement.

(* ===================================================================== *)
(** ** Rounding in the degree conversion of [_cpu] *)
(* ===================================================================== *)

Section RoundingClaims.

Import PrimFloat.
Open Scope float_scope.

(** C2, on the code.  Take the neighbours 0 0 0 / 0 . 2^-50 / 0 4 0: the
    derivatives are dz_dx = 2^-52 and dz_dy = 1, and arctan2(1, -2^-52) is
    PI/2 + 2^-52, which rounds to the binary64 number next above np.pi/2,
    0x1.921fb54442d19p+0 (a C library one unit in the last place higher
    returns 0x1.921fb54442d1ap+0).  From either value lines 53-60 compute
    exactly 360.0, which is not below 360. *)
Theorem cpu_kernel_rounds_up_to_360 (arctan2 : float -> float -> float) :
  arctan2 1 (-0x1p-52) = 0x1.921fb54442d19p+0 \/
  arctan2 1 (-0x1p-52) = 0x1.921fb54442d1ap+0 ->
  Binary64._cpu_kernel arctan2 0 0 0 0 0x1p-50 0 4 0 = 360 /\
  (Binary64._cpu_kernel arctan2 0 0 0 0 0x1p-50 0 4 0 <? 360) = false.
Proof.
  intros Hlibm.
  assert (Hk : Binary64._cpu_kernel arctan2 0 0 0 0 0x1p-50 0 4 0 = 360).
  { unfold Binary64._cpu_kernel.
    change (((0 + 2 * 0x1p-50 + 0) - (0 + 2 * 0 + 0)) / 8) with 0x1p-52.
    change (((0 + 2 * 4 + 0) - (0 + 2 * 0 + 0)) / 8) with 1.
    cbv zeta.
    change ((0x1p-52 =? 0) && (1 =? 0))%bool with false. cbv iota.
    change (opp 0x1p-52) with (-0x1p-52).
    destruct Hlibm as [-> | ->]; reflexivity. }
  rewrite Hk. split; reflexivity.
Qed.

Lemma cpu_kernel_rounds_up_to_360_witness :
  (fun _ _ : float => 0x1.921fb54442d19p+0) 1 (-0x1p-52) = 0x1.921fb54442d19p+0 /\
  Binary64._cpu_kernel (fun _ _ => 0x1.921fb54442d19p+0) 0 0 0 0 0x1p-50 0 4 0 = 360.
Proof.
  split; [reflexivity |].
  exact (proj1 (cpu_kernel_rounds_up_to_360 (fun _ _ => 0x1.921fb54442d19p+0)
                  (or_introl eq_refl))).
Defined.

(** The two scenarios of the exact layer, in binary64: on the north slope
    arctan2(-10, -0.0) is -np.pi/2 and the value written is 180.0; on
    [near_north] arctan2(10000, -0.125) is 0x1.922086fb5a2a3p+0 and the value
    written is 359.9992838027561, above 359.999 (in binary64
    0x1.67ffbe76c8b44p+8). *)
Lemma slope_north_binary64 (arctan2 : float -> float -> float) :
  arctan2 (-10) (opp 0) = opp (Binary64.np_pi / 2) ->
  Binary64._cpu_kernel arctan2 30 30 30 20 20 10 10 10 = 180.
Proof.
  intros Hlibm. unfold Binary64._cpu_kernel.
  change (((30 + 2 * 20 + 10) - (30 + 2 * 20 + 10)) / 8) with 0.
  change (((10 + 2 * 10 + 10) - (30 + 2 * 30 + 30)) / 8) with (-10).
  cbv zeta. change ((0 =? 0) && (-10 =? 0))%bool with false. cbv iota.
  rewrite Hlibm. reflexivity.
Qed.

Lemma near_north_binary64 (arctan2 : float -> float -> float) :
  arctan2 10000 (-0.125) = 0x1.922086fb5a2a3p+0 ->
  Binary64._cpu_kernel arctan2 0 0 0 0 0.5 0 40000 0 = 0x1.67ffd11034429p+8 /\
  (0x1.67ffbe76c8b44p+8 <? Binary64._cpu_kernel arctan2 0 0 0 0 0.5 0 40000 0) = true.
Proof.
  intros Hlibm.
  assert (Hk : Binary64._cpu_kernel arctan2 0 0 0 0 0.5 0 40000 0 = 0x1.67ffd11034429p+8).
  { unfold Binary64._cpu_kernel.
    change (((0 + 2 * 0.5 + 0) - (0 + 2 * 0 + 0)) / 8) with 0.125.
    change (((0 + 2 * 40000 + 0) - (0 + 2 * 0 + 0)) / 8) with 10000.
    cbv zeta. change ((0.125 =? 0) && (10000 =? 0))%bool with false. cbv iota.
    change (opp 0.125) with (-0.125).
    rewrite Hlibm. reflexivity. }
  rewrite Hk. split; reflexivity.
Qed.

End RoundingClaims.

(* ===================================================================== *)
(** ** Further properties of the sequential evaluator *)
(* ===================================================================== *)

Section CpuFurther.

Open Scope Z_scope.

(** The eight neighbours of a cell: the offsets of the 3x3 window but the
    centre. *)
Lemma ring_cases (dy dx : Z) :
  -1 <= dy <= 1 -> -1 <= dx <= 1 -> (dy, dx) <> (0, 0) ->
  (dy, dx) = (-1, -1) \/ (dy, dx) = (-1, 0) \/ (dy, dx) = (-1, 1) \/
  (dy, dx) = (0, -1) \/ (dy, dx) = (0, 1) \/
  (dy, dx) = (1, -1) \/ (dy, dx) = (1, 0) \/ (dy, dx) = (1, 1).
Proof.
  intros Hdy Hdx Hne.
  assert (Hy : dy = -1 \/ dy = 0 \/ dy = 1) by lia.
  assert (Hx : dx = -1 \/ dx = 0 \/ dx = 1) by lia.
  destruct Hy as [-> | [-> | ->]], Hx as [-> | [-> | ->]]; try tauto.
Qed.

(** X1.  [_cpu] raises nothing on any array; its output has the shape of
    the input, each interior cell holds the kernel's value on the eight
    neighbours of that cell in the input, read in the order
    a b c / d . f / g h i, and every other cell holds NaN. *)
Theorem cpu_output_cell_by_cell (data : ndarray) :
  wf data ->
  exists out,
    _cpu data = Ok out /\ wf out /\ same_shape out data /\
    forall y x, in_grid data y x ->
      (interior data y x = false -> get out y x = Ok NaN) /\
      (interior data y x = true ->
       exists a b c d f g h i,
         get data (y - 1) (x - 1) = Ok a /\ get data (y - 1) x = Ok b /\
         get data (y - 1) (x + 1) = Ok c /\ get data y (x - 1) = Ok d /\
         get data y (x + 1) = Ok f /\ get data (y + 1) (x - 1) = Ok g /\
         get data (y + 1) x = Ok h /\ get data (y + 1) (x + 1) = Ok i /\
         get out y x = Ok (_cpu_kernel a b c d f g h i)).
Proof.
  intros Hwf.
  destruct (_cpu_spec data Hwf) as (out & Hrun & Hwfo & Hshape & Hget).
  exists out. split; [exact Hrun |]. split; [exact Hwfo |]. split; [exact Hshape |].
  intros y x Hin. rewrite (Hget y x Hin). split.
  - intros ->. reflexivity.
  - intros Hint. rewrite Hint.
    destruct (_cpu_cell_interior data y x Hwf Hint)
      as (a & b & c & d & f & g & h & i & Ha & Hb & Hc & Hd & Hf & Hg & Hh & Hi & Hcell).
    exists a, b, c, d, f, g, h, i. repeat (split; [assumption |]). exact Hcell.
Qed.

Lemma cpu_output_cell_by_cell_witness :
  wf near_north /\ exists out, _cpu near_north = Ok out /\ get out 2 1 = Ok NaN.
Proof.
  assert (Hwf : wf near_north) by (split; [reflexivity | repeat constructor]).
  split; [exact Hwf |].
  destruct (cpu_output_cell_by_cell near_north Hwf) as (out & Hrun & _ & _ & Hcells).
  exists out. split; [exact Hrun |].
  apply (Hcells 2 1); [unfold in_grid; cbn; lia |].
  destruct (interior near_north 2 1) eqn:Hint; [| reflexivity].
  apply interior_spec in Hint. cbn in Hint. lia.
Defined.

(** The body of the loops reads the eight neighbours and nothing else. *)
Lemma _cpu_cell_ring (d1 d2 : ndarray) (y1 x1 y2 x2 : Z) :
  (forall dy dx, -1 <= dy <= 1 -> -1 <= dx <= 1 -> (dy, dx) <> (0, 0) ->
     get d1 (y1 + dy) (x1 + dx) = get d2 (y2 + dy) (x2 + dx)) ->
  _cpu_cell d1 y1 x1 = _cpu_cell d2 y2 x2.
Proof.
  intros Hring. unfold _cpu_cell.
  pose proof (Hring (-1) (-1)) as Ea. pose proof (Hring (-1) 0) as Eb.
  pose proof (Hring (-1) 1) as Ec. pose proof (Hring 0 (-1)) as Ed.
  pose proof (Hring 0 1) as Ef. pose proof (Hring 1 (-1)) as Eg.
  pose proof (Hring 1 0) as Eh. pose proof (Hring 1 1) as Ei.
  rewrite ?Z.add_0_r in *.
  change (y1 + -1) with (y1 - 1) in *. change (x1 + -1) with (x1 - 1) in *.
  change (y2 + -1) with (y2 - 1) in *. change (x2 + -1) with (x2 - 1) in *.
  rewrite Ea, Eb, Ec, Ed, Ef, Eg, Eh, Ei by (lia || discriminate).
  reflexivity.
Qed.

(** X2.  The value [_cpu] writes for an interior cell depends on the eight
    neighbours of the cell only, not on the cell itself, on cells further
    away, or on where in the array the cell lies: two interior cells, of
    one array or of two, whose eight neighbours agree receive the same
    value. *)
Theorem cpu_cell_depends_on_its_ring_only (d1 d2 : ndarray) (y1 x1 y2 x2 : Z) :
  wf d1 -> wf d2 -> interior d1 y1 x1 = true -> interior d2 y2 x2 = true ->
  (forall dy dx, -1 <= dy <= 1 -> -1 <= dx <= 1 -> (dy, dx) <> (0, 0) ->
     get d1 (y1 + dy) (x1 + dx) = get d2 (y2 + dy) (x2 + dx)) ->
  exists o1 o2,
    _cpu d1 = Ok o1 /\ _cpu d2 = Ok o2 /\ get o1 y1 x1 = get o2 y2 x2.
Proof.
  intros Hwf1 Hwf2 Hi1 Hi2 Hring.
  destruct (_cpu_spec d1 Hwf1) as (o1 & Hrun1 & _ & _ & Hget1).
  destruct (_cpu_spec d2 Hwf2) as (o2 & Hrun2 & _ & _ & Hget2).
  exists o1, o2. split; [exact Hrun1 |]. split; [exact Hrun2 |].
  rewrite Hget1 by (apply interior_spec in Hi1; unfold in_grid; lia).
  rewrite Hget2 by (apply interior_spec in Hi2; unfold in_grid; lia).
  rewrite Hi1, Hi2. apply _cpu_cell_ring. exact Hring.
Qed.

Lemma cpu_cell_depends_on_its_ring_only_witness :
  wf slope_north /\ wf slope_north_peak /\
  interior slope_north 1 1 = true /\ interior slope_north_peak 1 1 = true /\
  exists o1 o2,
    _cpu slope_north = Ok o1 /\ _cpu slope_north_peak = Ok o2 /\
    get o1 1 1 = get o2 1 1.
Proof.
  assert (Hwf2 : wf slope_north_peak) by (split; [reflexivity | repeat constructor]).
  assert (Hi1 : interior slope_north 1 1 = true) by (apply interior_spec; cbn; lia).
  assert (Hi2 : interior slope_north_peak 1 1 = true) by (apply interior_spec; cbn; lia).
  split; [exact slope_north_wf |]. split; [exact Hwf2 |].
  split; [exact Hi1 |]. split; [exact Hi2 |].
  apply (cpu_cell_depends_on_its_ring_only slope_north slope_north_peak 1 1 1 1
           slope_north_wf Hwf2 Hi1 Hi2).
  intros dy dx Hdy Hdx Hne.
  destruct (ring_cases dy dx Hdy Hdx Hne)
    as [E | [E | [E | [E | [E | [E | [E | E]]]]]]];
    injection E as -> ->; reflexivity.
Defined.

(** X3.  The value [_cpu] writes for an interior cell is NaN exactly when
    one of the eight neighbours of the cell is NaN (in exact arithmetic): a
    NaN neighbour always reaches the output, also where the surface around
    it is flat, and real neighbours never give NaN. *)
Theorem cpu_cell_is_nan_iff_a_neighbour_is (data : ndarray) (y x : Z) :
  wf data -> interior data y x = true ->
  exists out,
    _cpu data = Ok out /\
    (get out y x = Ok NaN <->
     exists dy dx, -1 <= dy <= 1 /\ -1 <= dx <= 1 /\ (dy, dx) <> (0, 0) /\
                   get data (y + dy) (x + dx) = Ok NaN).
Proof.
  intros Hwf Hint.
  destruct (_cpu_spec data Hwf) as (out & Hrun & _ & _ & Hget).
  exists out. split; [exact Hrun |].
  rewrite Hget by (apply interior_spec in Hint; unfold in_grid; lia).
  rewrite Hint.
  destruct (_cpu_cell_interior data y x Hwf Hint)
    as (a & b & c & d & f & g & h & i & Ha & Hb & Hc & Hd & Hf & Hg & Hh & Hi & ->).
  split.
  - intros Hnan. injection Hnan as Hnan.
    destruct a as [| ra]; [exists (-1), (-1); repeat split; try lia; try discriminate; exact Ha |].
    destruct b as [| rb];
      [exists (-1), 0; rewrite Z.add_0_r; repeat split; try lia; try discriminate; exact Hb |].
    destruct c as [| rc]; [exists (-1), 1; repeat split; try lia; try discriminate; exact Hc |].
    destruct d as [| rd];
      [exists 0, (-1); rewrite Z.add_0_r; repeat split; try lia; try discriminate; exact Hd |].
    destruct f as [| rf];
      [exists 0, 1; rewrite Z.add_0_r; repeat split; try lia; try discriminate; exact Hf |].
    destruct g as [| rg]; [exists 1, (-1); repeat split; try lia; try discriminate; exact Hg |].
    destruct h as [| rh];
      [exists 1, 0; rewrite Z.add_0_r; repeat split; try lia; try discriminate; exact Hh |].
    destruct i as [| ri]; [exists 1, 1; repeat split; try lia; try discriminate; exact Hi |].
    rewrite _cpu_kernel_real in Hnan. destruct (_ && _); discriminate.
  - intros (dy & dx & Hdy & Hdx & Hne & Hnb). f_equal. apply _cpu_kernel_nan.
    destruct (ring_cases dy dx Hdy Hdx Hne)
      as [E | [E | [E | [E | [E | [E | [E | E]]]]]]];
      injection E as -> ->; rewrite ?Z.add_0_r in Hnb;
      change (y + -1) with (y - 1) in Hnb; change (x + -1) with (x - 1) in Hnb.
    + left. congruence.
    + right; left. congruence.
    + do 2 right; left. congruence.
    + do 3 right; left. congruence.
    + do 4 right; left. congruence.
    + do 5 right; left. congruence.
    + do 6 right; left. congruence.
    + do 7 right. congruence.
Qed.

Lemma cpu_cell_is_nan_iff_a_neighbour_is_witness :
  wf slope_north /\ interior slope_north 1 1 = true /\
  exists out, _cpu slope_north = Ok out /\
    (get out 1 1 = Ok NaN ->
     exists dy dx, get slope_north (1 + dy) (1 + dx) = Ok NaN).
Proof.
  assert (Hi : interior slope_north 1 1 = true) by (apply interior_spec; cbn; lia).
  split; [exact slope_north_wf |]. split; [exact Hi |].
  destruct (cpu_cell_is_nan_iff_a_neighbour_is slope_north 1 1 slope_north_wf Hi)
    as (out & Hrun & Hiff).
  exists out. split; [exact Hrun |].
  intros Hnan. destruct (proj1 Hiff Hnan) as (dy & dx & _ & _ & _ & H).
  exists dy, dx. exact H.
Defined.

(** X4.  Tiles compose: for every chunk of a dask array on numpy,
    [_run_dask_numpy] raises nothing and the block it returns has the
    chunk's shape and is, cell for cell, the chunk's part of what
    [_run_numpy] returns for the whole array, the border of the array
    included. *)
Theorem dask_blocks_are_parts_of_the_numpy_result (values : ndarray) (ck : chunk) :
  wf values -> chunk_inside ck values ->
  exists block whole_out,
    _run_dask_numpy values ck = Ok block /\ _run_numpy values = Ok whole_out /\
    wf block /\ nrows block = height ck /\ ncols block = width ck /\
    same_shape whole_out values /\
    forall y x, 0 <= y < Z.of_nat (height ck) -> 0 <= x < Z.of_nat (width ck) ->
      get block y x = get whole_out (Z.of_nat (row0 ck) + y) (Z.of_nat (col0 ck) + x).
Proof.
  intros Hwf Hck.
  destruct (_run_dask_numpy_agrees values ck Hwf Hck) as (block & out' & Hrun & Hrun' & Hget).
  destruct (_cpu_spec values Hwf) as (out'' & Hcpu & _ & Hshape & _).
  destruct (overlap_constant_spec values ck NaN Hwf Hck) as (blk & Hov & Hwfb & _).
  destruct (_cpu_spec blk Hwfb) as (computed & Hcomp & Hwfc & [Hcr Hcc] & _).
  exists block, out'.
  assert (Hblock : block = slice2 computed 1 (-1) 1 (-1)).
  { unfold _run_dask_numpy, map_overlap in Hrun. cbv zeta in Hrun.
    rewrite Hov in Hrun. cbn [bind] in Hrun. rewrite Hcomp in Hrun.
    cbn [bind] in Hrun. congruence. }
  assert (Hout : out' = out'') by (unfold _run_numpy in Hrun'; congruence).
  destruct (overlap_constant_spec values ck NaN Hwf Hck) as (blk' & Hov' & _ & Hrb & Hcb & _).
  assert (blk' = blk) by congruence. subst blk'.
  destruct (trim_shape computed) as [Htr Htc].
  split; [exact Hrun |]. split; [exact Hrun' |].
  split; [rewrite Hblock; apply trim_wf; exact Hwfc |].
  split; [rewrite Hblock; lia |]. split; [rewrite Hblock; lia |].
  split; [rewrite Hout; exact Hshape | exact Hget].
Qed.

Lemma dask_blocks_are_parts_of_the_numpy_result_witness :
  wf slope_north /\ chunk_inside (mk_chunk 1 2 0 3) slope_north /\
  exists block whole_out,
    _run_dask_numpy slope_north (mk_chunk 1 2 0 3) = Ok block /\
    _run_numpy slope_north = Ok whole_out /\
    get block 0 1 = get whole_out 1 1.
Proof.
  assert (Hck : chunk_inside (mk_chunk 1 2 0 3) slope_north) by (split; cbn; lia).
  split; [exact slope_north_wf |]. split; [exact Hck |].
  destruct (dask_blocks_are_parts_of_the_numpy_result slope_north _ slope_north_wf Hck)
    as (block & whole_out & Hrun & Hrun' & _ & _ & _ & _ & Hget).
  exists block, whole_out. split; [exact Hrun |]. split; [exact Hrun' |].
  apply (Hget 0 1); cbn; lia.
Defined.

End CpuFurther.

(* ===================================================================== *)
(** ** Further properties of the kernel, in exact arithmetic *)
(* ===================================================================== *)

Section KernelFurther.

Open Scope R_scope.

(** [atan2] does not change when both arguments are scaled by a positive
    factor. *)
Lemma atan2_scale (k y x : R) : 0 < k -> atan2 (k * y) (k * x) = atan2 y x.
Proof.
  intros Hk.
  destruct (Rtotal_order x 0) as [Hx | [-> | Hx]].
  - assert (Hkx : k * x < 0) by nra.
    destruct (Rlt_le_dec y 0) as [Hy | Hy].
    + rewrite (atan2_left_down y x), (atan2_left_down (k * y) (k * x)) by (assumption || nra).
      replace (k * y / (k * x)) with (y / x) by (field; lra). reflexivity.
    + rewrite (atan2_left_up y x), (atan2_left_up (k * y) (k * x)) by (assumption || nra).
      replace (k * y / (k * x)) with (y / x) by (field; lra). reflexivity.
  - rewrite Rmult_0_r.
    destruct (Rtotal_order y 0) as [Hy | [-> | Hy]].
    + rewrite !atan2_down by nra. reflexivity.
    + rewrite Rmult_0_r. reflexivity.
    + rewrite !atan2_up by nra. reflexivity.
  - rewrite (atan2_right y x), (atan2_right (k * y) (k * x)) by (assumption || nra).
    replace (k * y / (k * x)) with (y / x) by (field; lra). reflexivity.
Qed.

(** The opposite direction has the bearing half a turn away. *)
Lemma bearing_half_turn (y x : R) :
  ~ (y = 0 /\ x = 0) ->
  bearing (degrees (- y) (- x)) = bearing (degrees y x) + 180 \/
  bearing (degrees (- y) (- x)) = bearing (degrees y x) - 180.
Proof.
  intros Hnz.
  pose proof (bearing_quarter_turn y x Hnz) as H1.
  assert (Hnz' : ~ (- x = 0 /\ y = 0)) by (intros [? ?]; apply Hnz; split; lra).
  pose proof (bearing_quarter_turn (- x) y Hnz') as H2.
  pose proof (bearing_range _ (degrees_range y x)).
  pose proof (bearing_range _ (degrees_range (- y) (- x))).
  lra.
Qed.

(** The direction mirrored about the north-south axis has the bearing
    mirrored about north. *)
Lemma bearing_mirror_we (y x : R) :
  ~ (y = 0 /\ x = 0) ->
  bearing (degrees y (- x)) = 360 - bearing (degrees y x) \/
  (bearing (degrees y x) = 0 /\ bearing (degrees y (- x)) = 0).
Proof.
  intros Hnz. destruct degrees_scale as [Hk Hpk]. pose proof PI_RGT_0 as Hpi.
  assert (Hflip : (0 <= y -> atan2 y (- x) = PI - atan2 y x) /\
                  (y < 0 -> atan2 y (- x) = - PI - atan2 y x)).
  { destruct (Rtotal_order x 0) as [Hx | [-> | Hx]].
    - rewrite (atan2_right y (- x)) by lra.
      replace (y / - x) with (- (y / x)) by (field; lra). rewrite atan_opp.
      split; intros Hy.
      + rewrite (atan2_left_up y x) by assumption. lra.
      + rewrite (atan2_left_down y x) by assumption. lra.
    - rewrite Ropp_0. split; intros Hy.
      + assert (0 < y) by (destruct Hy as [Hy | <-]; [exact Hy | exfalso; apply Hnz; split; reflexivity]).
        rewrite atan2_up by assumption. lra.
      + rewrite atan2_down by assumption. lra.
    - rewrite (atan2_right y x) by assumption.
      replace (y / - x) with (- (y / x)) by (field; lra).
      split; intros Hy.
      + rewrite (atan2_left_up y (- x)) by lra.
        replace (y / - x) with (- (y / x)) by (field; lra). rewrite atan_opp. lra.
      + rewrite (atan2_left_down y (- x)) by lra.
        replace (y / - x) with (- (y / x)) by (field; lra). rewrite atan_opp. lra. }
  destruct Hflip as [Hup Hdown].
  pose proof (degrees_range y x) as Hr. pose proof (atan2_range y x) as Ha.
  unfold degrees in *. set (k := 180 / PI) in *.
  destruct (Rlt_le_dec y 0) as [Hy | Hy].
  - rewrite (Hdown Hy).
    assert (Hneg : atan2 y x < 0).
    { destruct (Rtotal_order x 0) as [Hx | [-> | Hx]].
      - rewrite (atan2_left_down y x) by assumption.
        pose proof (atan_bound (y / x)). lra.
      - rewrite atan2_down by assumption. lra.
      - rewrite (atan2_right y x) by assumption.
        apply atan_neg, div_neg_pos; assumption. }
    set (t := atan2 y x) in *. unfold bearing.
    repeat case_bool_decide; nra.
  - rewrite (Hup Hy).
    assert (Hpos : 0 <= atan2 y x).
    { destruct (Rtotal_order x 0) as [Hx | [-> | Hx]].
      - rewrite (atan2_left_up y x) by assumption.
        pose proof (atan_bound (y / x)). lra.
      - assert (0 < y) by (destruct Hy as [Hy | <-]; [exact Hy | exfalso; apply Hnz; split; reflexivity]).
        rewrite atan2_up by assumption. lra.
      - rewrite (atan2_right y x) by assumption.
        destruct Hy as [Hy | <-].
        + left. apply atan_pos, div_pos_pos; assumption.
        + unfold Rdiv. rewrite Rmult_0_l, atan_0. lra. }
    set (t := atan2 y x) in *. unfold bearing.
    repeat case_bool_decide; nra.
Qed.

Lemma not_flat_real (p q : R) :
  ~ (p = 0 /\ q = 0) -> bool_decide (p = 0) && bool_decide (q = 0) = false.
Proof.
  intros Hpq. apply andb_false_iff.
  destruct (decide (p = 0)) as [Hp | Hp].
  - right. apply bool_decide_eq_false. tauto.
  - left. apply bool_decide_eq_false. exact Hp.
Qed.

(** X5.  In exact arithmetic the value written does not depend on the unit
    or the datum of the elevations: replacing every elevation z by
    k * z + c with k > 0 leaves the kernel's value as it is, flat cells
    included. *)
Theorem kernel_ignores_unit_and_datum (k c a b c0 d f g h i : R) :
  0 < k ->
  _cpu_kernel (Fin (k * a + c)) (Fin (k * b + c)) (Fin (k * c0 + c)) (Fin (k * d + c))
              (Fin (k * f + c)) (Fin (k * g + c)) (Fin (k * h + c)) (Fin (k * i + c))
  = _cpu_kernel (Fin a) (Fin b) (Fin c0) (Fin d) (Fin f) (Fin g) (Fin h) (Fin i).
Proof.
  intros Hk. rewrite !_cpu_kernel_real.
  assert (Hx : dz_dx_real (k * a + c) (k * c0 + c) (k * d + c) (k * f + c) (k * g + c)
                 (k * i + c) = k * dz_dx_real a c0 d f g i) by (unfold dz_dx_real; lra).
  assert (Hy : dz_dy_real (k * a + c) (k * b + c) (k * c0 + c) (k * g + c) (k * h + c)
                 (k * i + c) = k * dz_dy_real a b c0 g h i) by (unfold dz_dy_real; lra).
  rewrite Hx, Hy.
  set (X := dz_dx_real a c0 d f g i). set (Y := dz_dy_real a b c0 g h i).
  rewrite (bool_decide_ext (k * X = 0) (X = 0)) by nra.
  rewrite (bool_decide_ext (k * Y = 0) (Y = 0)) by nra.
  destruct (_ && _); [reflexivity |].
  unfold degrees. replace (- (k * X)) with (k * - X) by lra.
  rewrite atan2_scale by assumption. reflexivity.
Qed.

Lemma kernel_ignores_unit_and_datum_witness :
  0 < 2 /\
  _cpu_kernel (Fin (2 * 30 + 5)) (Fin (2 * 30 + 5)) (Fin (2 * 30 + 5)) (Fin (2 * 20 + 5))
              (Fin (2 * 20 + 5)) (Fin (2 * 10 + 5)) (Fin (2 * 10 + 5)) (Fin (2 * 10 + 5))
  = _cpu_kernel (Fin 30) (Fin 30) (Fin 30) (Fin 20) (Fin 20) (Fin 10) (Fin 10) (Fin 10).
Proof.
  assert (H : 0 < 2) by lra.
  split; [exact H |]. exact (kernel_ignores_unit_and_datum 2 5 30 30 30 20 20 10 10 10 H).
Defined.

(** X6.  In exact arithmetic, turning the terrain upside down (every
    elevation z replaced by -z) keeps flat cells flat and turns every
    bearing by exactly half a turn. *)
Theorem kernel_of_inverted_terrain (a b c d f g h i : R) :
  (dz_dx_real a c d f g i = 0 /\ dz_dy_real a b c g h i = 0 ->
   _cpu_kernel (Fin (- a)) (Fin (- b)) (Fin (- c)) (Fin (- d))
               (Fin (- f)) (Fin (- g)) (Fin (- h)) (Fin (- i)) = Fin (-1)) /\
  (~ (dz_dx_real a c d f g i = 0 /\ dz_dy_real a b c g h i = 0) ->
   exists t t' : R,
     _cpu_kernel (Fin a) (Fin b) (Fin c) (Fin d) (Fin f) (Fin g) (Fin h) (Fin i) = Fin t /\
     _cpu_kernel (Fin (- a)) (Fin (- b)) (Fin (- c)) (Fin (- d))
                 (Fin (- f)) (Fin (- g)) (Fin (- h)) (Fin (- i)) = Fin t' /\
     0 <= t < 360 /\ 0 <= t' < 360 /\ (t' = t + 180 \/ t' = t - 180)).
Proof.
  rewrite !_cpu_kernel_real.
  assert (Hx : dz_dx_real (- a) (- c) (- d) (- f) (- g) (- i) = - dz_dx_real a c d f g i)
    by (unfold dz_dx_real; lra).
  assert (Hy : dz_dy_real (- a) (- b) (- c) (- g) (- h) (- i) = - dz_dy_real a b c g h i)
    by (unfold dz_dy_real; lra).
  rewrite Hx, Hy.
  set (X := dz_dx_real a c d f g i). set (Y := dz_dy_real a b c g h i).
  split.
  - intros [HX HY]. rewrite HX, HY, Ropp_0.
    rewrite bool_decide_true by reflexivity. reflexivity.
  - intros Hnf.
    rewrite (not_flat_real X Y) by exact Hnf.
    rewrite (not_flat_real (- X) (- Y)) by (intros [? ?]; apply Hnf; split; lra).
    do 2 eexists. split; [reflexivity |]. split; [reflexivity |].
    split; [apply bearing_range, degrees_range |].
    split; [apply bearing_range, degrees_range |].
    apply bearing_half_turn. intros [? ?]. apply Hnf. split; lra.
Qed.

Lemma kernel_of_inverted_terrain_witness :
  ~ (dz_dx_real 30 30 20 20 10 10 = 0 /\ dz_dy_real 30 30 30 10 10 10 = 0) /\
  exists t t' : R,
    _cpu_kernel (Fin 30) (Fin 30) (Fin 30) (Fin 20) (Fin 20) (Fin 10) (Fin 10) (Fin 10) = Fin t /\
    _cpu_kernel (Fin (- 30)) (Fin (- 30)) (Fin (- 30)) (Fin (- 20))
                (Fin (- 20)) (Fin (- 10)) (Fin (- 10)) (Fin (- 10)) = Fin t' /\
    (t' = t + 180 \/ t' = t - 180).
Proof.
  assert (Hnf : ~ (dz_dx_real 30 30 20 20 10 10 = 0 /\ dz_dy_real 30 30 30 10 10 10 = 0))
    by (unfold dz_dy_real; intros [_ H]; lra).
  split; [exact Hnf |].
  destruct (proj2 (kernel_of_inverted_terrain 30 30 30 20 20 10 10 10) Hnf)
    as (t & t' & Ht & Ht' & _ & _ & Hrel).
  exists t, t'. split; [exact Ht |]. split; [exact Ht' | exact Hrel].
Defined.

(** X7.  In exact arithmetic, mirroring a neighbourhood that is not flat
    west to east mirrors the bearing about north (t becomes 360 - t, and 0
    stays 0), and mirroring it north to south mirrors the bearing about the
    west-east axis (t becomes 180 - t modulo 360). *)
Theorem kernel_of_mirrored_neighbourhood (a b c d f g h i : R) :
  ~ (dz_dx_real a c d f g i = 0 /\ dz_dy_real a b c g h i = 0) ->
  exists t t_we t_ns : R,
    _cpu_kernel (Fin a) (Fin b) (Fin c) (Fin d) (Fin f) (Fin g) (Fin h) (Fin i) = Fin t /\
    mirror_we _cpu_kernel (Fin a) (Fin b) (Fin c) (Fin d) (Fin f) (Fin g) (Fin h) (Fin i)
      = Fin t_we /\
    mirror_ns _cpu_kernel (Fin a) (Fin b) (Fin c) (Fin d) (Fin f) (Fin g) (Fin h) (Fin i)
      = Fin t_ns /\
    0 <= t < 360 /\ 0 <= t_we < 360 /\ 0 <= t_ns < 360 /\
    (t_we = 360 - t \/ (t = 0 /\ t_we = 0)) /\
    (t_ns = 180 - t \/ t_ns = 540 - t).
Proof.
  intros Hnf. unfold mirror_we, mirror_ns. rewrite !_cpu_kernel_real.
  assert (Hwx : dz_dx_real c a f d i g = - dz_dx_real a c d f g i)
    by (unfold dz_dx_real; lra).
  assert (Hwy : dz_dy_real c b a i h g = dz_dy_real a b c g h i)
    by (unfold dz_dy_real; lra).
  assert (Hnx : dz_dx_real g i d f a c = dz_dx_real a c d f g i)
    by (unfold dz_dx_real; lra).
  assert (Hny : dz_dy_real g h i a b c = - dz_dy_real a b c g h i)
    by (unfold dz_dy_real; lra).
  rewrite Hwx, Hwy, Hnx, Hny.
  set (X := dz_dx_real a c d f g i) in *. set (Y := dz_dy_real a b c g h i) in *.
  rewrite (not_flat_real X Y) by exact Hnf.
  rewrite (not_flat_real (- X) Y) by (intros [? ?]; apply Hnf; split; lra).
  rewrite (not_flat_real X (- Y)) by (intros [? ?]; apply Hnf; split; lra).
  do 3 eexists. split; [reflexivity |]. split; [reflexivity |]. split; [reflexivity |].
  pose proof (bearing_range _ (degrees_range Y (- X))) as R0.
  pose proof (bearing_range _ (degrees_range Y (- - X))) as R1.
  pose proof (bearing_range _ (degrees_range (- Y) (- X))) as R2.
  split; [exact R0 |]. split; [exact R1 |]. split; [exact R2 |].
  assert (Hnz : ~ (Y = 0 /\ - X = 0)) by (intros [? ?]; apply Hnf; split; lra).
  pose proof (bearing_mirror_we Y (- X) Hnz) as Hwe.
  split; [exact Hwe |].
  assert (Hnz' : ~ (Y = 0 /\ - - X = 0)) by (intros [? ?]; apply Hnf; split; lra).
  pose proof (bearing_half_turn Y (- - X) Hnz') as Hhalf.
  replace (- - - X) with (- X) in Hhalf by lra.
  lra.
Qed.

Lemma kernel_of_mirrored_neighbourhood_witness :
  ~ (dz_dx_real 30 30 20 20 10 10 = 0 /\ dz_dy_real 30 30 30 10 10 10 = 0) /\
  exists t t_ns : R,
    _cpu_kernel (Fin 30) (Fin 30) (Fin 30) (Fin 20) (Fin 20) (Fin 10) (Fin 10) (Fin 10) = Fin t /\
    _cpu_kernel (Fin 10) (Fin 10) (Fin 10) (Fin 20) (Fin 20) (Fin 30) (Fin 30) (Fin 30) = Fin t_ns /\
    (t_ns = 180 - t \/ t_ns = 540 - t).
Proof.
  assert (Hnf : ~ (dz_dx_real 30 30 20 20 10 10 = 0 /\ dz_dy_real 30 30 30 10 10 10 = 0))
    by (unfold dz_dy_real; intros [_ H]; lra).
  split; [exact Hnf |].
  destruct (kernel_of_mirrored_neighbourhood 30 30 30 20 20 10 10 10 Hnf)
    as (t & t_we & t_ns & Ht & _ & Hns & _ & _ & _ & _ & Hrel).
  exists t, t_ns. split; [exact Ht |]. split; [exact Hns | exact Hrel].
Defined.

End KernelFurther.

Section CompassFacts.

Open Scope R_scope.

Lemma sqrt_of_ratio (y x : R) :
  0 < x -> sqrt (1 + (y / x)²) = sqrt (x * x + y * y) / x.
Proof.
  intros Hx.
  assert (Hr : 0 < sqrt (x * x + y * y)) by (apply sqrt_lt_R0; nra).
  apply sqrt_lem_1.
  - unfold Rsqr. pose proof (Rle_0_sqr (y / x)) as H. unfold Rsqr in H. lra.
  - left. apply Rdiv_lt_0_compat; assumption.
  - unfold Rsqr.
    replace (sqrt (x * x + y * y) / x * (sqrt (x * x + y * y) / x))
      with (sqrt (x * x + y * y) * sqrt (x * x + y * y) / (x * x)) by (field; lra).
    rewrite sqrt_sqrt by nra. field. lra.
Qed.

(** [atan2] returns the angle of the point (x, y): with r the distance of
    the point from the origin, x = r cos and y = r sin of that angle. *)
Lemma atan2_polar (y x : R) :
  ~ (y = 0 /\ x = 0) ->
  x = sqrt (x * x + y * y) * cos (atan2 y x) /\
  y = sqrt (x * x + y * y) * sin (atan2 y x).
Proof.
  intros Hnz.
  set (r := sqrt (x * x + y * y)).
  assert (Hr : 0 < r) by (apply sqrt_lt_R0; nra).
  destruct (Rtotal_order x 0) as [Hx | [Hx | Hx]].
  - (* x < 0 *)
    assert (Hs : sqrt (1 + (y / x)²) = r / - x).
    { replace (y / x) with (- y / - x) by (field; lra).
      rewrite sqrt_of_ratio by lra. unfold r. f_equal. f_equal. ring. }
    assert (Hc : cos (atan (y / x)) = - x / r)
      by (rewrite cos_atan, Hs; field; lra).
    assert (Hsn : sin (atan (y / x)) = - y / r)
      by (rewrite sin_atan, Hs; field; lra).
    destruct (Rlt_le_dec y 0) as [Hy | Hy].
    + rewrite (atan2_left_down y x) by assumption.
      rewrite cos_minus, sin_minus, cos_PI, sin_PI, Hc, Hsn. split; field; lra.
    + rewrite (atan2_left_up y x) by assumption.
      rewrite neg_cos, neg_sin, Hc, Hsn. split; field; lra.
  - (* x = 0 *)
    subst x. destruct (Rtotal_order y 0) as [Hy | [Hy | Hy]].
    + rewrite atan2_down by assumption. rewrite cos_neg, sin_neg, cos_PI2, sin_PI2.
      assert (r = - y).
      { unfold r. replace (0 * 0 + y * y) with ((- y) * (- y)) by ring.
        apply sqrt_square. lra. }
      split; lra.
    + exfalso. apply Hnz. split; [exact Hy | reflexivity].
    + rewrite atan2_up by assumption. rewrite cos_PI2, sin_PI2.
      assert (r = y).
      { unfold r. replace (0 * 0 + y * y) with (y * y) by ring. apply sqrt_square. lra. }
      split; lra.
  - (* 0 < x *)
    assert (Hs : sqrt (1 + (y / x)²) = r / x) by (apply sqrt_of_ratio; exact Hx).
    rewrite (atan2_right y x) by assumption.
    rewrite cos_atan, sin_atan, Hs. split; field; lra.
Qed.

(** The bearing, in radians, is a quarter turn minus the angle of [atan2],
    up to a full turn. *)
Lemma bearing_radians (y x : R) :
  bearing (degrees y x) * (PI / 180) = PI / 2 - atan2 y x \/
  bearing (degrees y x) * (PI / 180) = PI / 2 - atan2 y x + 2 * PI.
Proof.
  pose proof PI_RGT_0 as Hpi.
  assert (Hd : degrees y x * (PI / 180) = atan2 y x) by (unfold degrees; field; lra).
  unfold bearing. repeat case_bool_decide; [left | right | left]; lra.
Qed.

(** X8.  In exact arithmetic the bearing written for a cell that is not
    flat is the compass direction of steepest descent: with t the bearing
    and r the length of the gradient (dz_dx, dz_dy), the eastward part of
    the unit vector of bearing t, sin t, is -dz_dx / r (downhill towards
    growing x), and its northward part, cos t, is dz_dy / r (downhill
    towards row 0); 0 <= t < 360. *)
Theorem bearing_points_downhill (a b c d f g h i : R) :
  ~ (dz_dx_real a c d f g i = 0 /\ dz_dy_real a b c g h i = 0) ->
  exists t : R,
    _cpu_kernel (Fin a) (Fin b) (Fin c) (Fin d) (Fin f) (Fin g) (Fin h) (Fin i) = Fin t /\
    0 <= t < 360 /\
    let r := sqrt (dz_dx_real a c d f g i * dz_dx_real a c d f g i
                   + dz_dy_real a b c g h i * dz_dy_real a b c g h i) in
    0 < r /\
    r * sin (t * (PI / 180)) = - dz_dx_real a c d f g i /\
    r * cos (t * (PI / 180)) = dz_dy_real a b c g h i.
Proof.
  intros Hnf. rewrite _cpu_kernel_real.
  set (X := dz_dx_real a c d f g i) in *. set (Y := dz_dy_real a b c g h i) in *.
  rewrite (not_flat_real X Y) by exact Hnf.
  eexists. split; [reflexivity |].
  split; [apply bearing_range, degrees_range |].
  cbv zeta.
  assert (Hr : 0 < sqrt (X * X + Y * Y)) by (apply sqrt_lt_R0; nra).
  split; [exact Hr |].
  assert (Hnz : ~ (Y = 0 /\ - X = 0)) by (intros [? ?]; apply Hnf; split; lra).
  destruct (atan2_polar Y (- X) Hnz) as [Hcos Hsin].
  replace (- X * - X + Y * Y) with (X * X + Y * Y) in Hcos, Hsin by ring.
  destruct (bearing_radians Y (- X)) as [-> | ->].
  - rewrite sin_shift, cos_shift. split; lra.
  - rewrite sin_plus, cos_plus, sin_2PI, cos_2PI, sin_shift, cos_shift.
    split; lra.
Qed.

Lemma bearing_points_downhill_witness :
  ~ (dz_dx_real 30 30 20 20 10 10 = 0 /\ dz_dy_real 30 30 30 10 10 10 = 0) /\
  exists t : R,
    _cpu_kernel (Fin 30) (Fin 30) (Fin 30) (Fin 20) (Fin 20) (Fin 10) (Fin 10) (Fin 10) = Fin t /\
    0 <= t < 360.
Proof.
  assert (Hnf : ~ (dz_dx_real 30 30 20 20 10 10 = 0 /\ dz_dy_real 30 30 30 10 10 10 = 0))
    by (unfold dz_dy_real; intros [_ H]; lra).
  split; [exact Hnf |].
  destruct (bearing_points_downhill 30 30 30 20 20 10 10 10 Hnf) as (t & Ht & Hrange & _).
  exists t. split; [exact Ht | exact Hrange].
Defined.

(** X9.  The compass convention of the kernel, in exact arithmetic: a
    surface that falls towards the north gets 0, towards the east 90,
    towards the south 180, towards the west 270, and one that falls
    equally towards two neighbouring directions gets 45, 135, 225 or
    315. *)
Theorem kernel_compass_points (a b c d f g h i : R) :
  let X := dz_dx_real a c d f g i in
  let Y := dz_dy_real a b c g h i in
  let t := _cpu_kernel (Fin a) (Fin b) (Fin c) (Fin d) (Fin f) (Fin g) (Fin h) (Fin i) in
  (X = 0 -> 0 < Y -> t = Fin 0) /\
  (X < 0 -> Y = - X -> t = Fin 45) /\
  (X < 0 -> Y = 0 -> t = Fin 90) /\
  (X < 0 -> Y = X -> t = Fin 135) /\
  (X = 0 -> Y < 0 -> t = Fin 180) /\
  (0 < X -> Y = - X -> t = Fin 225) /\
  (0 < X -> Y = 0 -> t = Fin 270) /\
  (0 < X -> Y = X -> t = Fin 315).
Proof.
  cbv zeta. rewrite _cpu_kernel_real.
  set (X := dz_dx_real a c d f g i). set (Y := dz_dy_real a b c g h i).
  destruct degrees_scale as [Hk Hpk]. pose proof PI_RGT_0 as Hpi.
  assert (Hq : PI / 4 * (180 / PI) = 45) by (field; lra).
  assert (Hneg1 : atan (-1) = - (PI / 4)).
  { replace (-1) with (Ropp 1) by lra. rewrite atan_opp, atan_1. reflexivity. }
  repeat split.
  - intros HX HY. rewrite not_flat_real by lra. f_equal.
    unfold degrees. rewrite HX, Ropp_0, atan2_up by assumption.
    replace (PI / 2 * (180 / PI)) with 90 by lra.
    unfold bearing. repeat case_bool_decide; lra.
  - intros HX HY. rewrite not_flat_real by lra. f_equal.
    unfold degrees. rewrite atan2_right by lra.
    replace (Y / - X) with 1 by (rewrite HY; field; lra). rewrite atan_1, Hq.
    unfold bearing. repeat case_bool_decide; lra.
  - intros HX HY. rewrite not_flat_real by lra. f_equal.
    unfold degrees. rewrite atan2_right by lra.
    rewrite HY. unfold Rdiv at 1. rewrite Rmult_0_l, atan_0, Rmult_0_l.
    unfold bearing. repeat case_bool_decide; lra.
  - intros HX HY. rewrite not_flat_real by lra. f_equal.
    unfold degrees. rewrite atan2_right by lra.
    replace (Y / - X) with (-1) by (rewrite HY; field; lra).
    rewrite Hneg1. replace (- (PI / 4) * (180 / PI)) with (-45) by lra.
    unfold bearing. repeat case_bool_decide; lra.
  - intros HX HY. rewrite not_flat_real by lra. f_equal.
    unfold degrees. rewrite HX, Ropp_0, atan2_down by assumption.
    replace (- (PI / 2) * (180 / PI)) with (-90) by lra.
    unfold bearing. repeat case_bool_decide; lra.
  - intros HX HY. rewrite not_flat_real by lra. f_equal.
    unfold degrees. rewrite atan2_left_down by lra.
    replace (Y / - X) with 1 by (rewrite HY; field; lra). rewrite atan_1.
    replace ((PI / 4 - PI) * (180 / PI)) with (-135) by lra.
    unfold bearing. repeat case_bool_decide; lra.
  - intros HX HY. rewrite not_flat_real by lra. f_equal.
    unfold degrees. rewrite atan2_left_up by lra.
    rewrite HY. unfold Rdiv at 1. rewrite Rmult_0_l, atan_0.
    replace ((0 + PI) * (180 / PI)) with 180 by lra.
    unfold bearing. repeat case_bool_decide; lra.
  - intros HX HY. rewrite not_flat_real by lra. f_equal.
    unfold degrees. rewrite atan2_left_up by lra.
    replace (Y / - X) with (-1) by (rewrite HY; field; lra).
    rewrite Hneg1. replace ((- (PI / 4) + PI) * (180 / PI)) with 135 by lra.
    unfold bearing. repeat case_bool_decide; lra.
Qed.

Lemma kernel_compass_points_witness :
  dz_dx_real 10 10 20 20 30 30 = 0 /\ 0 < dz_dy_real 10 10 10 30 30 30 /\
  _cpu_kernel (Fin 10) (Fin 10) (Fin 10) (Fin 20) (Fin 20) (Fin 30) (Fin 30) (Fin 30) = Fin 0.
Proof.
  assert (HX : dz_dx_real 10 10 20 20 30 30 = 0) by (unfold dz_dx_real; lra).
  assert (HY : 0 < dz_dy_real 10 10 10 30 30 30) by (unfold dz_dy_real; lra).
  split; [exact HX |]. split; [exact HY |].
  exact (proj1 (kernel_compass_points 10 10 10 20 20 30 30 30) HX HY).
Defined.

End CompassFacts.

(* ===================================================================== *)
(** ** Further properties of the device function and its launcher *)
(* ===================================================================== *)

Section DeviceFurther.

Open Scope R_scope.

(** The device function on a window whose eight outer cells are real
    numbers, in closed form. *)
Lemma _gpu_bearing_real (arr : ndarray) (a b c d f g h i : R) :
  get arr 0 0 = Ok (Fin a) -> get arr 0 1 = Ok (Fin b) -> get arr 0 2 = Ok (Fin c) ->
  get arr 1 0 = Ok (Fin d) -> get arr 1 2 = Ok (Fin f) ->
  get arr 2 0 = Ok (Fin g) -> get arr 2 1 = Ok (Fin h) -> get arr 2 2 = Ok (Fin i) ->
  _gpu_bearing arr =
  if bool_decide (dz_dx_real a c d f g i = 0) && bool_decide (dz_dy_real a b c g h i = 0)
  then Ok (Fin (-1))
  else Ok (Fin (bearing (atan2 (dz_dy_real a b c g h i) (- dz_dx_real a c d f g i)
                         * 57.29578))).
Proof.
  intros Ha Hb Hc Hd Hf Hg Hh Hi. unfold _gpu_bearing.
  rewrite Ha, Hb, Hc, Hd, Hf, Hg, Hh, Hi. cbn.
  fold (dz_dx_real a c d f g i). fold (dz_dy_real a b c g h i).
  destruct (bool_decide (dz_dx_real a c d f g i = 0) && bool_decide (dz_dy_real a b c g h i = 0));
    [reflexivity |].
  unfold bearing. repeat case_bool_decide; reflexivity.
Qed.

Lemma bearing_range_wide (t : R) : -270 < t <= 450 -> 0 <= bearing t < 360.
Proof. intros Ht. unfold bearing. repeat case_bool_decide; lra. Qed.

(** X10.  On a window whose eight outer cells are real numbers the device
    function [_gpu] raises nothing and returns -1 or a value between 0 and
    359.999 (in exact arithmetic); it returns -1 exactly when both
    derivatives are zero, which is exactly when the kernel of [_cpu] gives
    -1 on the same cells: the two evaluators agree on which cells are
    flat. *)
Theorem gpu_value_range_and_flat_cells (arr : ndarray) (a b c d f g h i : R) :
  get arr 0 0 = Ok (Fin a) -> get arr 0 1 = Ok (Fin b) -> get arr 0 2 = Ok (Fin c) ->
  get arr 1 0 = Ok (Fin d) -> get arr 1 2 = Ok (Fin f) ->
  get arr 2 0 = Ok (Fin g) -> get arr 2 1 = Ok (Fin h) -> get arr 2 2 = Ok (Fin i) ->
  exists v : R,
    _gpu arr = Ok (Fin v) /\ (v = -1 \/ 0 <= v <= 359.999) /\
    (v = -1 <-> dz_dx_real a c d f g i = 0 /\ dz_dy_real a b c g h i = 0) /\
    (v = -1 <->
     _cpu_kernel (Fin a) (Fin b) (Fin c) (Fin d) (Fin f) (Fin g) (Fin h) (Fin i) = Fin (-1)).
Proof.
  intros Ha Hb Hc Hd Hf Hg Hh Hi.
  pose proof (_gpu_bearing_real arr a b c d f g h i Ha Hb Hc Hd Hf Hg Hh Hi) as Hbear.
  rewrite _cpu_kernel_real.
  set (X := dz_dx_real a c d f g i) in *. set (Y := dz_dy_real a b c g h i) in *.
  pose proof (bearing_range _ (degrees_range Y (- X))) as Hcpu.
  destruct (bool_decide (X = 0) && bool_decide (Y = 0)) eqn:Hflat.
  - exists (-1).
    pose proof (_gpu_clamp arr _ Hbear) as [_ [Hkeep _]].
    split; [apply Hkeep; cbn; apply bool_decide_eq_false; lra |].
    split; [left; reflexivity |].
    apply andb_true_iff in Hflat as [HX HY].
    apply bool_decide_eq_true in HX, HY. tauto.
  - set (t := bearing (atan2 Y (- X) * 57.29578)) in *.
    assert (Ht : 0 <= t < 360).
    { apply bearing_range_wide.
      pose proof (atan2_range Y (- X)). pose proof PI_4. pose proof PI_RGT_0. nra. }
    assert (Hnf : ~ (X = 0 /\ Y = 0)).
    { intros [HX HY]. rewrite HX, HY in Hflat.
      rewrite bool_decide_true in Hflat by reflexivity. discriminate. }
    pose proof (_gpu_clamp arr _ Hbear) as [Hsnap [Hkeep _]].
    destruct (Fin t >? Fin 359.999)%sc eqn:Hclamp.
    + exists 0. split; [apply Hsnap; reflexivity |].
      split; [right; lra |]. split; [split; [lra | tauto] |].
      split; [lra | intros [= H]; lra].
    + exists t. split; [apply Hkeep; reflexivity |].
      cbn in Hclamp. apply bool_decide_eq_false in Hclamp.
      split; [right; lra |]. split; [split; [lra | tauto] |].
      split; [lra | intros [= H]; lra].
Qed.

Lemma gpu_value_range_and_flat_cells_witness :
  exists v : R, _gpu slope_north = Ok (Fin v) /\ (v = -1 \/ 0 <= v <= 359.999).
Proof.
  destruct (gpu_value_range_and_flat_cells slope_north 30 30 30 20 20 10 10 10
              eq_refl eq_refl eq_refl eq_refl eq_refl eq_refl eq_refl eq_refl)
    as (v & Hv & Hrange & _).
  exists v. split; [exact Hv | exact Hrange].
Defined.

(** X11.  The device function hands NaN on: when one of the eight outer
    cells of its window is NaN it returns NaN, which the clamp lets
    through. *)
Theorem gpu_hands_nan_on (arr : ndarray) (a b c d f g h i : scalar) :
  get arr 0 0 = Ok a -> get arr 0 1 = Ok b -> get arr 0 2 = Ok c ->
  get arr 1 0 = Ok d -> get arr 1 2 = Ok f ->
  get arr 2 0 = Ok g -> get arr 2 1 = Ok h -> get arr 2 2 = Ok i ->
  a = NaN \/ b = NaN \/ c = NaN \/ d = NaN \/ f = NaN \/ g = NaN \/ h = NaN \/ i = NaN ->
  _gpu arr = Ok NaN.
Proof.
  intros Ha Hb Hc Hd Hf Hg Hh Hi Hnan.
  assert (Hbear : _gpu_bearing arr = Ok NaN).
  { unfold _gpu_bearing. rewrite Ha, Hb, Hc, Hd, Hf, Hg, Hh, Hi. cbn [bind]. cbv zeta.
    destruct Hnan as [-> | [-> | [-> | [-> | [-> | [-> | [-> | ->]]]]]]];
      repeat match goal with
             | u : scalar |- _ => destruct u
             end;
      cbn; rewrite ?andb_false_r; reflexivity. }
  exact (proj1 (proj2 (_gpu_clamp arr NaN Hbear)) eq_refl).
Qed.

Lemma gpu_hands_nan_on_witness :
  _gpu (mk_ndarray 3 3 [ [Fin 1; NaN; Fin 1]; [Fin 1; Fin 1; Fin 1]; [Fin 1; Fin 1; Fin 1] ])
  = Ok NaN.
Proof.
  apply (gpu_hands_nan_on _ (Fin 1) NaN (Fin 1) (Fin 1) (Fin 1) (Fin 1) (Fin 1) (Fin 1));
    try reflexivity.
  right; left; reflexivity.
Defined.

End DeviceFurther.

Section LaunchFurther.

Open Scope Z_scope.





End LaunchFurther.

(* ===================================================================== *)
(** ** The entry point [aspect] *)
(* ===================================================================== *)

Lemma _run_cupy_never_returns (cuda_args : Z * Z -> result ((Z * Z) * (Z * Z)))
    (a out : ndarray) :
  _run_cupy cuda_args a <> Ok out.
Proof.
  unfold _run_cupy. cbv zeta.
  destruct (np_pad a Reflect) as [_data | e]; [| discriminate].
  cbn [bind]. rewrite _run_cupy_launch_raises.
  destruct (cuda_args (shape _data)); discriminate.
Qed.

Section EntryPointFacts.

Context {C Dm At : Type}.
Variable cuda_args : Z * Z -> result ((Z * Z) * (Z * Z)).

(** X13.  On a DataArray backed by a numpy array, whatever the machine,
    [aspect] raises nothing and returns a DataArray that holds the output
    of [_cpu] on the data, of the same shape, under the name given,
    with the coordinates, dimensions and attributes of its argument. *)
Theorem aspect_on_numpy (has_cuda cupy_imported : bool)
    (agg : DataArray storage C Dm At) (nm : string) (a : ndarray) :
  data agg = NumpyArray a -> wf a ->
  exists out,
    aspect cuda_args has_cuda cupy_imported agg nm
      = Ok (mk_DataArray (Eager out) nm (coords agg) (dims agg) (attrs agg)) /\
    _cpu a = Ok out /\ wf out /\ same_shape out a.
Proof.
  intros Hdata Hwf.
  destruct (_cpu_spec a Hwf) as (out & Hrun & Hwfo & Hshape & _).
  exists out. split; [| split; [exact Hrun | split; assumption]].
  unfold aspect. cbv zeta. rewrite Hdata. cbn [isinstance_numpy payload bind].
  unfold _run_numpy. rewrite Hrun. reflexivity.
Qed.

(** X14.  On a DataArray backed by a dask array: on a machine without CUDA
    [aspect] returns at once, wrapping the lazy array whose blocks
    [_run_dask_numpy] computes; on a machine with CUDA and cupy it raises
    NameError for [is_cupy_backed], a name line 194 reads and the module
    binds nowhere; with CUDA but without cupy it raises TypeError. *)
Theorem aspect_on_dask (has_cuda cupy_imported : bool)
    (agg : DataArray storage C Dm At) (nm : string) (a : ndarray) :
  data agg = DaskArray a ->
  (has_cuda = false ->
   aspect cuda_args has_cuda cupy_imported agg nm
     = Ok (mk_DataArray (Lazy (_run_dask_numpy a)) nm (coords agg) (dims agg) (attrs agg))) /\
  (has_cuda = true -> cupy_imported = true ->
   aspect cuda_args has_cuda cupy_imported agg nm = Raise (NameError "is_cupy_backed")) /\
  (has_cuda = true -> cupy_imported = false ->
   aspect cuda_args has_cuda cupy_imported agg nm = Raise TypeError).
Proof.
  intros Hdata. unfold aspect. cbv zeta. rewrite Hdata.
  split; [| split].
  - intros ->. reflexivity.
  - intros -> ->. reflexivity.
  - intros -> ->. reflexivity.
Qed.

(** X15.  [aspect] returns nothing for any other data: on a cupy array it
    always raises (TypeError without CUDA or without cupy, else what
    [_run_cupy] raises), and on data that is neither a numpy, cupy nor dask
    array it raises TypeError. *)
Theorem aspect_returns_nothing_else (has_cuda cupy_imported : bool)
    (agg : DataArray storage C Dm At) (nm : string) :
  (forall a, data agg = CupyArray a ->
     (forall r, aspect cuda_args has_cuda cupy_imported agg nm <> Ok r) /\
     (has_cuda = false \/ cupy_imported = false ->
      aspect cuda_args has_cuda cupy_imported agg nm = Raise TypeError) /\
     (has_cuda = true -> cupy_imported = true ->
      forall e, _run_cupy cuda_args a = Raise e ->
      aspect cuda_args has_cuda cupy_imported agg nm = Raise e)) /\
  (data agg = OtherStorage ->
   aspect cuda_args has_cuda cupy_imported agg nm = Raise TypeError).
Proof.
  split.
  - intros a Hdata.
    assert (Hcuda : has_cuda = true -> cupy_imported = true ->
              forall e, _run_cupy cuda_args a = Raise e ->
              aspect cuda_args has_cuda cupy_imported agg nm = Raise e).
    { intros -> -> e He. unfold aspect. cbv zeta. rewrite Hdata.
      cbn [isinstance_numpy and_then bind isinstance_cupy payload]. rewrite He. reflexivity. }
    assert (Hno : has_cuda = false \/ cupy_imported = false ->
              aspect cuda_args has_cuda cupy_imported agg nm = Raise TypeError).
    { intros Hoff. unfold aspect. cbv zeta. rewrite Hdata.
      destruct has_cuda, cupy_imported; try reflexivity.
      destruct Hoff; discriminate. }
    split; [| split; [exact Hno | exact Hcuda]].
    intros r Hr.
    destruct has_cuda eqn:E1; [| rewrite Hno in Hr by auto; discriminate].
    destruct cupy_imported eqn:E2; [| rewrite Hno in Hr by auto; discriminate].
    destruct (_run_cupy cuda_args a) as [out | e] eqn:Hrun.
    + exact (_run_cupy_never_returns cuda_args a out Hrun).
    + rewrite (Hcuda eq_refl eq_refl e eq_refl) in Hr. discriminate.
  - intros Hdata. unfold aspect. cbv zeta. rewrite Hdata.
    destruct has_cuda, cupy_imported; reflexivity.
Qed.

End EntryPointFacts.

Lemma aspect_on_numpy_witness :
  wf slope_north /\
  exists out,
    aspect one_block true true (mk_DataArray (NumpyArray slope_north) "elevation" tt tt tt)
           "aspect"
      = Ok (mk_DataArray (Eager out) "aspect" tt tt tt) /\
    _cpu slope_north = Ok out.
Proof.
  split; [exact slope_north_wf |].
  destruct (aspect_on_numpy one_block true true
              (mk_DataArray (NumpyArray slope_north) "elevation" tt tt tt) "aspect"
              slope_north eq_refl slope_north_wf) as (out & Hrun & Hcpu & _).
  exists out. split; [exact Hrun | exact Hcpu].
Defined.

Lemma aspect_on_dask_witness :
  aspect one_block true true (mk_DataArray (DaskArray slope_north) "elevation" tt tt tt)
         "aspect"
  = Raise (NameError "is_cupy_backed").
Proof.
  exact (proj1 (proj2 (aspect_on_dask one_block true true
                         (mk_DataArray (DaskArray slope_north) "elevation" tt tt tt)
                         "aspect" slope_north eq_refl)) eq_refl eq_refl).
Defined.

Lemma aspect_returns_nothing_else_witness :
  aspect one_block false true (mk_DataArray (CupyArray slope_north) "elevation" tt tt tt)
         "aspect" = Raise TypeError /\
  aspect one_block true true (mk_DataArray OtherStorage "elevation" tt tt tt)
         "aspect" = Raise TypeError.
Proof.
  split.
  - exact (proj1 (proj2 (proj1 (aspect_returns_nothing_else one_block false true
                                  (mk_DataArray (CupyArray slope_north) "elevation" tt tt tt)
                                  "aspect") slope_north eq_refl))
             (or_introl eq_refl)).
  - exact (proj2 (aspect_returns_nothing_else one_block true true
                    (mk_DataArray OtherStorage "elevation" tt tt tt) "aspect") eq_refl).
Defined.
